(** * mm3_Compile: channel detection, drift estimation and slicing

  A shallow embedding of [mm3_Compile.py], the Compile stage of the mm3
  mother-machine pipeline, together with the properties its design
  document states about it.

  Conventions of the embedding:
  - Python integers are [Z]; pixel areas and labels are integers.
  - numpy [float64] is IEEE 754 binary64 on the kernel's primitive
    floats ([Float64]) in the shift estimation, whose arithmetic rounds;
    a centroid that is only rounded to a pixel, and a displacement
    float64 holds exactly, is a rational ([Q]).  [np.round] is
    round-half-to-even.
  - a Python [dict] is an association list in insertion order, which is
    the order [keys()] and [items()] iterate in.
  - exceptions are values of [exn]; the script itself is a writer monad
    over the events it emits (log lines, directories, persisted stacks).
  - functions of [mm3_helpers], [skimage], [keras] and the file system are
    fields of a [World] record: the script is verified for every
    behaviour of these collaborators. *)

From Stdlib Require Import String Ascii DecimalString.
From Stdlib Require Import ZArith QArith Qround Qabs List Bool Lia Lqa.
From Stdlib Require Import Sorted Permutation.
From Stdlib Require Floats Uint63.
Import ListNotations.

Local Open Scope Z_scope.

(** ** Python exceptions and results *)

Inductive exn : Type :=
| NameError (name : string)
| IndexError
| TypeError
| KeyError (key : string)
| ValueError
| AttributeError
| HelperError (what : string).

Inductive result (A : Type) : Type :=
| Ok (a : A)
| Raise (e : exn).
Arguments Ok {A} a.
Arguments Raise {A} e.

(** ** numpy scalar helpers *)

Module Np.

(** [np.round] on the value of a float64: round half to even. *)
Definition round (x : Q) : Z :=
  let f := Qfloor x in
  match Qcompare (x - inject_Z f) (1 # 2) with
  | Lt => f
  | Gt => f + 1
  | Eq => if Z.even f then f else f + 1
  end.

(** [.astype('int16')] of an integral value: two's-complement wrap. *)
Definition astype_int16 (z : Z) : Z :=
  (z + 32768) mod 65536 - 32768.

(** [.astype('uint16')] of an integral value. *)
Definition astype_uint16 (z : Z) : Z := z mod 65536.

Definition Qsum (l : list Q) : Q := fold_right Qplus 0%Q l.

(** [np.mean] of a non-empty one-dimensional array. *)
Definition mean (l : list Q) : Q :=
  (Qsum l / inject_Z (Z.of_nat (length l)))%Q.

End Np.

(** ** Drift estimation (lines 334-357) *)

Module Drift.

(** *** Region filtering by modal area (step 2) *)

(** The two attributes of a [skimage] region the filter reads. *)
Record TrapRegion : Type := mkRegion { label : Z; area : Z }.

(** [np.unique(a, return_counts=True)]: the distinct values in ascending
    order, each with its number of occurrences. *)
Fixpoint bump (v : Z) (t : list (Z * nat)) : list (Z * nat) :=
  match t with
  | [] => [(v, 1%nat)]
  | (w, c) :: t' =>
      if v <? w then (v, 1%nat) :: t
      else if v =? w then (w, S c) :: t'
      else (w, c) :: bump v t'
  end.

Definition np_unique_counts (a : list Z) : list (Z * nat) :=
  fold_right bump [] a.

(** The count a table of [np_unique_counts] holds for a value, if any. *)
Fixpoint lookup (t : list (Z * nat)) (v : Z) : option nat :=
  match t with
  | [] => None
  | (w, c) :: t' => if v =? w then Some c else lookup t' v
  end.

(** The values of a table are in strictly ascending order. *)
Definition ascending (t : list (Z * nat)) : Prop :=
  StronglySorted (fun e1 e2 => fst e1 < fst e2) t.

(** [counts.argmax()]: the first entry holding the largest count. *)
Fixpoint argmax_first (t : list (Z * nat)) : option (Z * nat) :=
  match t with
  | [] => None
  | (v, c) :: t' =>
      match argmax_first t' with
      | None => Some (v, c)
      | Some (w, d) => if (d <=? c)%nat then Some (v, c) else Some (w, d)
      end
  end.

(** [stats.mode(areas)[0]]; [None] stands for the empty result scipy
    gives on an empty array. *)
Definition stats_mode (areas : list Z) : option Z :=
  option_map fst (argmax_first (np_unique_counts areas)).

(** [trap.area != mode_area] *)
Definition area_differs (a : Z) (mode_area : option Z) : bool :=
  match mode_area with
  | Some m => negb (a =? m)
  | None => true
  end.

(** One iteration of the loop over [align_trap_props]; the state is
    [(good_align_trap_props, bad_align_trap_props)]. *)
Definition classify_step (mode_area : option Z)
    (st : list TrapRegion * list Z) (trap : TrapRegion)
  : list TrapRegion * list Z :=
  let (good, bad) := st in
  if area_differs (area trap) mode_area
  then (good, bad ++ [label trap])
  else (good ++ [trap], bad).

Definition classify (align_trap_props : list TrapRegion)
  : list TrapRegion * list Z :=
  let areas := map area align_trap_props in
  let mode_area := stats_mode areas in
  fold_left (classify_step mode_area) align_trap_props ([], []).

Definition good_align_trap_props (props : list TrapRegion) :=
  fst (classify props).
Definition bad_align_trap_props (props : list TrapRegion) :=
  snd (classify props).

(** The labelled mask stack: frames, rows, columns. *)
Definition LabelImage := list (list Z).
Definition LabelStack := list LabelImage.

(** [stack[stack == lbl] = 0] *)
Definition zero_label (lbl : Z) (stack : LabelStack) : LabelStack :=
  map (map (map (fun v => if v =? lbl then 0 else v))) stack.

Definition zero_labels (bad : list Z) (stack : LabelStack) : LabelStack :=
  fold_left (fun s lbl => zero_label lbl s) bad stack.

(** The stack after the filter of lines 334-347. *)
Definition filter_stack (props : list TrapRegion) (stack : LabelStack)
  : LabelStack :=
  zero_labels (bad_align_trap_props props) stack.

(** What the zeroing loop leaves of a pixel. *)
Definition keep_unless (bad : list Z) (v : Z) : Z :=
  if existsb (Z.eqb v) bad then 0 else v.

(** *** Shift estimation in exact arithmetic (step 3) *)

(** A region centroid [(row, col)], as a pair of rationals.  The
    arithmetic of this section is exact: it gives what lines 353-357
    give wherever float64 is exact - on whole-pixel displacements in
    particular.  The estimation the script model runs is that of
    [Float64], in float64 itself; the two raise on the same batches and
    yield as many shifts. *)
Definition Centroid : Type := (Q * Q)%type.

(** [np.asarray] of the per-frame centroid lists.  Only a batch in which
    every frame holds the same, non-zero number of centroids becomes an
    array of shape [(frames, n, 2)]; an empty batch, frames without
    centroids, and frames of unequal length give an array of fewer
    dimensions (for unequal lengths a one-dimensional array of Python
    lists; numpy 1.24 and later refuse to build it at all). *)
Inductive CentroidArray : Type :=
| Array3 (frames : list (list Centroid))
| ArrayLow.

Definition same_length (c0 : list Centroid) (c : list Centroid) : bool :=
  (length c =? length c0)%nat.

Definition np_asarray (cs : list (list Centroid)) : CentroidArray :=
  match cs with
  | [] => ArrayLow
  | c0 :: rest =>
      if (0 <? length c0)%nat && forallb (same_length c0) rest
      then Array3 cs
      else ArrayLow
  end.

(** [align_centroids[0,:,:]] *)
Definition index_first (a : CentroidArray) : result (list Centroid) :=
  match a with
  | Array3 (c0 :: _) => Ok c0
  | _ => Raise IndexError
  end.

Definition sub_centroid (a b : Centroid) : Centroid :=
  (fst a - fst b, snd a - snd b)%Q.

(** [frame_centroids - first], position by position. *)
Definition displacements (first frame_centroids : list Centroid)
  : list Centroid :=
  map (fun p => sub_centroid (fst p) (snd p)) (combine frame_centroids first).

(** [np.mean(_, axis=1)] on one frame's displacements. *)
Definition mean_axis1 (d : list Centroid) : Centroid :=
  (Np.mean (map fst d), Np.mean (map snd d)).

Definition raw_shift (first frame_centroids : list Centroid) : Centroid :=
  mean_axis1 (displacements first frame_centroids).

(** [np.round(shift).astype('int16')] *)
Definition integer_shift (s : Centroid) : Z * Z :=
  (Np.astype_int16 (Np.round (fst s)), Np.astype_int16 (Np.round (snd s))).

(** Lines 353-357: from [align_centroids] to [integer_shifts]. *)
Definition integer_shifts (align_centroids : list (list Centroid))
  : result (list (Z * Z)) :=
  let a := np_asarray align_centroids in
  match index_first a with
  | Raise e => Raise e
  | Ok first =>
      match a with
      | Array3 frames =>
          Ok (map (fun fc => integer_shift (raw_shift first fc)) frames)
      | ArrayLow => Raise IndexError
      end
  end.

End Drift.

(** ** Shift estimation as the script computes it, in float64 (lines 349-357) *)

Module Float64.

(** An IEEE 754 binary64 number; the operations on it round to nearest,
    ties to even, as numpy's do. *)
Definition float64 : Set := PrimFloat.float.

(** The rational a finite float64 stands for; [None] for an infinity
    and for a NaN. *)
Definition to_Q (x : float64) : option Q :=
  match FloatOps.Prim2SF x with
  | SpecFloat.S754_zero _ => Some 0%Q
  | SpecFloat.S754_finite s m e =>
      let n := if s then Z.neg m else Z.pos m in
      Some (if 0 <=? e then inject_Z (n * 2 ^ e)
            else n # Pos.pow 2 (Z.to_pos (- e)))
  | _ => None
  end.

(** A Python [int] as a float64 (exact below 2^53). *)
Definition of_Z (z : Z) : float64 :=
  if z <? 0 then PrimFloat.opp (PrimFloat.of_uint63 (Uint63.of_Z (- z)))
  else PrimFloat.of_uint63 (Uint63.of_Z z).

(** [np.add.reduce] along the axis of the regions: the elements are
    added one by one, in array order, to the identity [0.0]. *)
Definition np_sum (l : list float64) : float64 :=
  fold_left PrimFloat.add l PrimFloat.zero.

(** [np.mean]: the sum divided by the number of elements. *)
Definition np_mean (l : list float64) : float64 :=
  PrimFloat.div (np_sum l) (of_Z (Z.of_nat (length l))).

(** [np.round(x).astype('int16')]: the nearest integer, ties to even,
    then the cast.  The cast of a NaN or an infinity is written as the 0
    that x86-64 gives. *)
Definition round_int16 (x : float64) : Z :=
  match to_Q x with
  | Some q => Np.astype_int16 (Np.round q)
  | None => 0
  end.

(** A region centroid [(row, col)] as [regionprops] reports it. *)
Definition Centroid : Type := (float64 * float64)%type.

(** [np.asarray] of the per-frame centroid lists: an array of shape
    [(frames, n, 2)] only if every frame holds the same, non-zero number
    of centroids (see [Drift.np_asarray]). *)
Inductive CentroidArray : Type :=
| Array3 (frames : list (list Centroid))
| ArrayLow.

Definition same_length (c0 : list Centroid) (c : list Centroid) : bool :=
  (length c =? length c0)%nat.

Definition np_asarray (cs : list (list Centroid)) : CentroidArray :=
  match cs with
  | [] => ArrayLow
  | c0 :: rest =>
      if (0 <? length c0)%nat && forallb (same_length c0) rest
      then Array3 cs
      else ArrayLow
  end.

(** [align_centroids[0,:,:]] *)
Definition index_first (a : CentroidArray) : result (list Centroid) :=
  match a with
  | Array3 (c0 :: _) => Ok c0
  | _ => Raise IndexError
  end.

(** [frame_centroids - first], position by position. *)
Definition sub_centroid (a b : Centroid) : Centroid :=
  (PrimFloat.sub (fst a) (fst b), PrimFloat.sub (snd a) (snd b)).

Definition displacements (first frame_centroids : list Centroid)
  : list Centroid :=
  map (fun p => sub_centroid (fst p) (snd p)) (combine frame_centroids first).

(** [np.mean(_, axis=1)] on one frame's displacements. *)
Definition mean_axis1 (d : list Centroid) : Centroid :=
  (np_mean (map fst d), np_mean (map snd d)).

Definition raw_shift (first frame_centroids : list Centroid) : Centroid :=
  mean_axis1 (displacements first frame_centroids).

(** [np.round(shift).astype('int16')] *)
Definition integer_shift (s : Centroid) : Z * Z :=
  (round_int16 (fst s), round_int16 (snd s)).

(** Lines 353-357: from [align_centroids] to [integer_shifts]. *)
Definition integer_shifts (align_centroids : list (list Centroid))
  : result (list (Z * Z)) :=
  let a := np_asarray align_centroids in
  match index_first a with
  | Raise e => Raise e
  | Ok first =>
      match a with
      | Array3 frames =>
          Ok (map (fun fc => integer_shift (raw_shift first fc)) frames)
      | ArrayLow => Raise IndexError
      end
  end.

(** Lines 349-357 on the filtered stack; [regionprops_centroids] is
    [skimage.measure.regionprops] restricted to the centroids it reports
    for one frame, in label order. *)
Definition estimate_shifts
    (regionprops_centroids : Drift.LabelImage -> list Centroid)
    (stack : Drift.LabelStack) : result (list (Z * Z)) :=
  integer_shifts (map regionprops_centroids stack).

(** The shift of one frame in words: the displacements of one
    coordinate between the frame's centroids and those of frame 0, taken
    position by position, added up in array order and divided by the
    number of regions. *)
Definition mean_displacement (coord : Centroid -> float64)
    (first frame_centroids : list Centroid) : float64 :=
  PrimFloat.div
    (fold_left
       (fun acc p => PrimFloat.add acc (PrimFloat.sub (coord (fst p))
                                                      (coord (snd p))))
       (combine frame_centroids first) PrimFloat.zero)
    (of_Z (Z.of_nat (length first))).

End Float64.

(** ** Reference-crop selection on the first frame (lines 284-294) *)

Module RefCrop.

Import Drift.

(** [np.round(np.asarray([reg.centroid for reg in dilated_trap_props]))] *)
Definition rounded (cs : list Centroid) : list (Z * Z) :=
  map (fun c => (Np.round (fst c), Np.round (snd c))) cs.

(** [centroids[:,0]-256 > 0] *)
Definition top_test (centroids : list (Z * Z)) : list bool :=
  map (fun c => 0 <? fst c - 256) centroids.

(** [centroids[:,0]+256 < dilated_trap_labels.shape[0]] *)
Definition bottom_test (centroids : list (Z * Z)) (rows : Z) : list bool :=
  map (fun c => fst c + 256 <? rows) centroids.

(** [np.stack((top_test, bottom_test))]: shape [(2, N)]. *)
Definition test_array (centroids : list (Z * Z)) (rows : Z)
  : list (list bool) :=
  [top_test centroids; bottom_test centroids rows].

(** [np.all(_, axis=1)] of a two-dimensional array: one boolean per row. *)
Definition np_all_axis1 (a : list (list bool)) : list bool :=
  map (forallb (fun b => b)) a.

(** [np.where(_)[0]]: the positions holding [True]. *)
Fixpoint np_where_from (i : nat) (l : list bool) : list nat :=
  match l with
  | [] => []
  | b :: l' => if b then i :: np_where_from (S i) l'
               else np_where_from (S i) l'
  end.

Definition np_where (l : list bool) : list nat := np_where_from 0 l.

(** Line 293.  Without any region [centroids] is one-dimensional and
    [centroids[:,0]] already fails. *)
Definition good_trap_region_index (centroids : list (Z * Z)) (rows : Z)
  : result nat :=
  match centroids with
  | [] => Raise IndexError
  | _ =>
      match np_where (np_all_axis1 (test_array centroids rows)) with
      | [] => Raise IndexError
      | i :: _ => Ok i
      end
  end.

(** Line 294: [centroids[good_trap_region_index,:].astype('uint16')]. *)
Definition anchor_centroid (cs : list Centroid) (rows : Z)
  : result (Z * Z) :=
  let centroids := rounded cs in
  match good_trap_region_index centroids rows with
  | Raise e => Raise e
  | Ok i =>
      match nth_error centroids i with
      | None => Raise IndexError
      | Some c => Ok (Np.astype_uint16 (fst c), Np.astype_uint16 (snd c))
      end
  end.

(** The crop [frame[r-256:r+256, c-256:c+256]] of lines 303-304 lies in a
    frame of [rows] by [cols] pixels. *)
Definition crop_in_bounds (rows cols : Z) (c : Z * Z) : bool :=
  (0 <=? fst c - 256) && (fst c + 256 <=? rows)
  && (0 <=? snd c - 256) && (snd c + 256 <=? cols).

(** What the comments of lines 287 and 292 describe: the position of the
    first region a (512,512) crop can be taken from. *)
Fixpoint first_croppable_from (i : nat) (rows cols : Z)
    (centroids : list (Z * Z)) : option nat :=
  match centroids with
  | [] => None
  | c :: rest =>
      if crop_in_bounds rows cols c then Some i
      else first_croppable_from (S i) rows cols rest
  end.

Definition first_croppable := first_croppable_from 0.

End RefCrop.

(** ** Shifting the reference bounding boxes *)

Module Shifter.

(** A bounding box as [skimage] reports it:
    [(min_row, min_col, max_row, max_col)], upper bounds exclusive. *)
Record BBox : Type := mkBBox { r0 : Z; c0 : Z; r1 : Z; c1 : Z }.

(** Modelled from the spec: a box moved by a frame's shift vector
    (section 3: the vector is the translation of all traps of the frame
    relative to frame 0). *)
Definition translate (b : BBox) (s : Z * Z) : BBox :=
  mkBBox (r0 b + fst s) (c0 b + snd s) (r1 b + fst s) (c1 b + snd s).

(** Modelled from the spec: no part of the box falls outside
    [[0, frame_dimension)] (section 4.5), in either dimension; the one
    dimension the call passes, [img.shape[0]], bounds both. *)
Definition in_frame (imgSize : Z) (b : BBox) : bool :=
  (0 <=? r0 b) && (r1 b <=? imgSize) && (0 <=? c0 b) && (c1 b <=? imgSize).

(** Modelled from the spec: the outcome for one trap in one frame, the
    translated box or the explicit out-of-bounds condition (section 7). *)
Inductive Shifted : Type :=
| InFrame (b : BBox)
| OutOfBounds.

(** Modelled from the spec: the policy of section 7 for one trap in one
    frame, drop the channel rather than clip the box. *)
Definition shift_one (imgSize : Z) (b : BBox) (s : Z * Z) : Shifted :=
  let b' := translate b s in
  if in_frame imgSize b' then InFrame b' else OutOfBounds.

(** Modelled from the spec: the warnings of section 7, one per dropped
    channel, naming trap label and frame. *)
Definition warnings_of_trap (imgSize : Z) (lbl : Z) (b : BBox)
    (shifts : list (Z * Z)) : list (Z * nat) :=
  map (fun p => (lbl, fst p))
      (filter (fun p => negb (in_frame imgSize (translate b (snd p))))
              (combine (seq 0 (length shifts)) shifts)).

(** Modelled from the spec: [mm3.shift_bounding_boxes] is defined in
    [mm3_helpers], which is not among the sources; only its call on line
    363 is, [shift_bounding_boxes(good_trap_bboxes_dict, integer_shifts,
    img.shape[0])].  Following sections 3, 4.5 and 7 of the design
    document: every reference box is translated, frame by frame, by that
    frame's shift vector; a translated box that leaves
    [[0, frame_dimension)] is flagged out of bounds - the channel is
    dropped for that frame and a warning is issued - and is never wrapped
    or clipped.  The result maps each trap label to its per-frame
    outcomes, next to the warnings. *)
Definition shift_bounding_boxes (bboxes : list (Z * BBox))
    (shifts : list (Z * Z)) (imgSize : Z)
  : list (Z * list Shifted) * list (Z * nat) :=
  (map (fun kv => (fst kv, map (shift_one imgSize (snd kv)) shifts)) bboxes,
   flat_map (fun kv => warnings_of_trap imgSize (fst kv) (snd kv) shifts)
            bboxes).

End Shifter.

(** ** The script: metadata extraction, channel masks and slicing *)

Module Script.

Import Drift.
Local Open Scope string_scope.
Local Open Scope Z_scope.
Local Open Scope list_scope.

(** *** Text helpers *)

(** [s in t] on strings. *)
Fixpoint contains (s t : string) : bool :=
  String.prefix s t
  || match t with
     | EmptyString => false
     | String _ t' => contains s t'
     end.

Definition digits (n : nat) : string :=
  NilZero.string_of_uint (Nat.to_uint n).

Fixpoint zeros (n : nat) : string :=
  match n with O => "" | S n' => String "0" (zeros n') end.

(** ['%0<w>d' % z]: zero padding to width [w], the sign included. *)
Definition fmt_0d (w : nat) (z : Z) : string :=
  let d := digits (Z.abs_nat z) in
  if z <? 0
  then String "-" (zeros (w - 1 - String.length d) ++ d)%string
  else (zeros (w - String.length d) ++ d)%string.

(** ['%d' % z] *)
Definition fmt_d (z : Z) : string := fmt_0d 0 z.

(** [filepath.split('/')[-1]] *)
Fixpoint basename_acc (acc : string) (s : string) : string :=
  match s with
  | EmptyString => acc
  | String c s' =>
      if Ascii.eqb c "/" then basename_acc "" s'
      else basename_acc (acc ++ String c "")%string s'
  end.

Definition basename (path : string) : string := basename_acc "" path.

(** *** Sorting as Python does it (stable) *)

Section StableSort.
Context {A : Type} (le : A -> A -> bool).

Fixpoint insert_sorted (x : A) (l : list A) : list A :=
  match l with
  | [] => [x]
  | y :: l' => if le y x then y :: insert_sorted x l' else x :: l
  end.

Definition py_sorted (l : list A) : list A :=
  fold_left (fun acc x => insert_sorted x acc) l [].

End StableSort.

(** [sorted(names)] and [names.sort()] on file names. *)
Definition sort_names : list string -> list string := py_sorted String.leb.

(** *** Frame records *)

(** Channel id and closed-end pixel of each channel of a frame. *)
Definition Channels : Type := list (Z * Z).

Record Metadata : Type := mkMetadata {
  fov : Z;
  t : Z;
  planes : list string;
  channels : option Channels
}.

(** A value of [analyzed_imgs]: the handle [apply_async] returned (holding
    what the worker will produce, [None] when it raises), the metadata of
    the frame, or the failure sentinel [False]. *)
Inductive ImgEntry : Type :=
| Pending (outcome : option Metadata)
| Meta (m : Metadata)
| Failed.

Definition is_failed (v : ImgEntry) : bool :=
  match v with Failed => true | _ => false end.

Definition is_valid (v : ImgEntry) : bool :=
  match v with Meta _ => true | _ => false end.

(** What a finished worker leaves in [analyzed_imgs]. *)
Definition entry_of (outcome : option Metadata) : ImgEntry :=
  match outcome with
  | Some m => Meta m
  | None => Failed
  end.

(** A [dict] keyed by file name, in insertion order. *)
Definition Dict (V : Type) : Type := list (string * V).

(** [d[k] = v] *)
Fixpoint dict_set {V} (d : Dict V) (k : string) (v : V) : Dict V :=
  match d with
  | [] => [(k, v)]
  | (k', v') :: d' =>
      if String.eqb k' k then (k, v) :: d' else (k', v') :: dict_set d' k v
  end.

Fixpoint dict_get {V} (d : Dict V) (k : string) : option V :=
  match d with
  | [] => None
  | (k', v') :: d' => if String.eqb k' k then Some v' else dict_get d' k
  end.

Definition keys {V} (d : Dict V) : list string := map fst d.

(** The number of records holding the failure sentinel. *)
Definition failed_extractions (analyzed_imgs : Dict ImgEntry) : nat :=
  length (filter is_failed (map snd analyzed_imgs)).

Definition valid_records (analyzed_imgs : Dict ImgEntry) : nat :=
  length (filter is_valid (map snd analyzed_imgs)).

(** Channel masks: for each field of view, its channel ids. *)
Definition ChannelMasks : Type := list (Z * list Z).

(** The cropped trap images the segmentation path hands to [save_tiffs]. *)
Definition TrapImages : Type := list (string * list (Z * Shifter.Shifted)).

(** *** Events the script emits *)

Inductive Event : Type :=
| Information (msg : string)
| Warning (msg : string)
| Print (msg : string)
| MakeDirs (dir : string)
| SaveMetadata (analyzed_imgs : Dict ImgEntry)
| TiffStackSliceAndWrite (send_to_write : list (string * Z))
| Hdf5StackSliceAndWrite (send_to_write : list (string * Z))
| SaveTiffs (trap_images_dict : TrapImages)
| OutOfBoundsWarning (trap : Z) (frame : nat).

(** An event that persists channel stacks. *)
Definition is_write (e : Event) : bool :=
  match e with
  | TiffStackSliceAndWrite _ | Hdf5StackSliceAndWrite _ | SaveTiffs _ => true
  | _ => false
  end.

(** *** The monad of the script: emitted events and a result *)

Definition M (A : Type) : Type := (list Event * result A)%type.

Definition ret {A} (a : A) : M A := ([], Ok a).

Definition bind {A B} (m : M A) (k : A -> M B) : M B :=
  match m with
  | (tr, Raise e) => (tr, Raise e)
  | (tr, Ok a) => let (tr', r) := k a in (tr ++ tr', r)
  end.

Definition raise {A} (e : exn) : M A := ([], Raise e).
Definition emit (e : Event) : M unit := ([e], Ok tt).
Definition lift {A} (r : result A) : M A := ([], r).

Declare Scope script_scope.
Delimit Scope script_scope with script.
Notation "x <- m ;; k" := (bind m (fun x => k))
  (at level 61, m at next level, right associativity) : script_scope.
Notation "' p <- m ;; k" := (bind m (fun x => match x with p => k end))
  (at level 61, p pattern, m at next level, right associativity)
  : script_scope.
Notation "m ;; k" := (bind m (fun _ => k))
  (at level 61, right associativity) : script_scope.
Local Open Scope script_scope.

Definition information (msg : string) : M unit := emit (Information msg).
Definition warning (msg : string) : M unit := emit (Warning msg).
Definition print (msg : string) : M unit := emit (Print msg).

Definition trace {A} (m : M A) : list Event := fst m.
Definition outcome {A} (m : M A) : result A := snd m.

(** [for x in l: body] over a state [S]. *)
Fixpoint for_each {X S} (l : list X) (body : S -> X -> M S) (s : S) : M S :=
  match l with
  | [] => ret s
  | x :: l' => s' <- body s x ;; for_each l' body s'
  end.

(** *** Module-level names *)

(** The names bound by the import statements of the module (lines 5-48). *)
Definition module_imports : list string :=
  [ "print_function"; "sys"; "os"; "time"; "inspect"; "argparse"; "yaml";
    "glob"; "re"; "io"; "measure"; "morphology"; "stats"; "pprint";
    "pickle"; "multiprocessing"; "Pool"; "np"; "warnings"; "h5py";
    "models"; "tiff"; "mm3" ].

(** Evaluating a module name. *)
Definition global_name (name : string) : M unit :=
  if existsb (String.eqb name) module_imports then ret tt
  else raise (NameError name).

(** [six.iteritems(d)] *)
Definition six_iteritems {K V} (d : list (K * V)) : M (list (K * V)) :=
  global_name "six" ;; ret d.

(** A variable assigned on some paths only. *)
Definition variable {A} (name : string) (v : option A) : M A :=
  match v with
  | Some a => ret a
  | None => raise (NameError name)
  end.

(** *** Run configuration and collaborators *)

(** The command line and the parameter file, as far as the script reads
    them. *)
Record Config : Type := mkConfig {
  user_spec_fovs : list Z;
  nproc : option Z;
  modelfile : option string;
  num_analyzers : Z;
  t_end : option Z;
  ana_dir : string;
  chnl_dir : string;
  hdf5_dir : string;
  output : string;
  do_metadata : bool;
  do_time_table : bool;
  do_channel_masks : bool;
  do_slicing : bool;
  find_channels_method : string;
  model_file_traps : string
}.

(** What detection on the first frame yields (lines 254-284): the frame
    height, the centroids of the dilated trap regions in label order and
    the bounding boxes of the accepted traps by label. *)
Record FirstFrame : Type := mkFirstFrame {
  frame_rows : Z;
  dilated_centroids : list Centroid;
  good_trap_bboxes : list (Z * Shifter.BBox)
}.

(** The collaborators of the script: file system, worker pool,
    segmentation model, [skimage] and [mm3_helpers].  A call that raises
    is a [Raise]. *)
Record World : Type := mkWorld {
  path_exists : string -> bool;
  glob_tiffs : list string;
  load_metadata : result (Dict ImgEntry);
  get_tif_params : string -> option Metadata;
  get_initial_tif_params : string -> result Metadata;
  load_model : string -> result unit;
  read_first_frame : string -> result unit;
  detect_traps : string -> result FirstFrame;
  crop_frames : list string -> Z * Z -> result unit;
  align_regions : list string -> Z * Z ->
                  result (list TrapRegion * LabelStack);
  regionprops_centroids : LabelImage -> list Float64.Centroid;
  crop_traps : list string -> list (Z * list Shifter.Shifted) ->
               result (TrapImages * Dict Channels);
  make_time_table : Dict ImgEntry -> result unit;
  load_channel_masks : result ChannelMasks;
  make_masks : Dict ImgEntry -> result ChannelMasks;
  tiff_stack_slice_and_write :
    list (string * Z) -> ChannelMasks -> Dict ImgEntry -> result unit;
  hdf5_stack_slice_and_write :
    list (string * Z) -> ChannelMasks -> Dict ImgEntry -> result unit;
  save_tiffs : TrapImages -> Dict ImgEntry -> result unit
}.

(** Python truthiness of [t_end] (an integer or [None]). *)
Definition truthy_t_end (t_end : option Z) : bool :=
  match t_end with
  | Some v => negb (v =? 0)
  | None => false
  end.

(** *** Set-up (lines 69-100) *)

Definition analyzers (cfg : Config) : Z :=
  match nproc cfg with
  | Some n => if n =? 0 then num_analyzers cfg else n
  | None => num_analyzers cfg
  end.

Definition ensure_dir (w : World) (dir : string) : M unit :=
  if path_exists w dir then ret tt else emit (MakeDirs dir).

Definition setup (cfg : Config) (w : World) : M unit :=
  information "Loading experiment parameters." ;;
  information ("Using " ++ fmt_d (analyzers cfg)
               ++ " threads for multiprocessing.")%string ;;
  ensure_dir w (ana_dir cfg) ;;
  if String.eqb (output cfg) "TIFF" then ensure_dir w (chnl_dir cfg)
  else if String.eqb (output cfg) "HDF5" then ensure_dir w (hdf5_dir cfg)
  else ret tt.

(** *** Finding the input frames (lines 116-145) *)

(** The pattern ['t%03dxy|t%04dxy' % (t_end, t_end)] matches somewhere in
    the file name. *)
Definition at_t_end (t_end : Z) (ifile : string) : bool :=
  contains ("t" ++ fmt_0d 3 t_end ++ "xy")%string ifile
  || contains ("t" ++ fmt_0d 4 t_end ++ "xy")%string ifile.

(** [found_files[:n]] for the first [n] whose file matches. *)
Fixpoint cut_at_t_end (t_end : Z) (files : list string) : list string :=
  match files with
  | [] => []
  | f :: rest => if at_t_end t_end f then [] else f :: cut_at_t_end t_end rest
  end.

Definition filter_fovs (fovs : list Z) (files : list string) : list string :=
  flat_map
    (fun fov_id =>
       filter (contains ("xy" ++ fmt_0d 2 fov_id)%string) files)
    fovs.

Definition find_files (cfg : Config) (w : World) : M (list string) :=
  let found_files := sort_names (map basename (glob_tiffs w)) in
  let found_files :=
    match t_end cfg with
    | Some v => if truthy_t_end (t_end cfg) then cut_at_t_end v found_files
                else found_files
    | None => found_files
    end in
  found_files <-
    (if (0 <? length (user_spec_fovs cfg))%nat
     then information "Filtering TIFFs by FOV." ;;
          ret (filter_fovs (user_spec_fovs cfg) found_files)
     else ret found_files) ;;
  (if (0 <? length found_files)%nat
   then information ("Found " ++ fmt_d (Z.of_nat (length found_files))
                     ++ " image files.")%string
   else warning "No TIFF files found") ;;
  ret found_files.

(** *** Peak strategy: pooled extraction (lines 149-176) *)

(** [Pool(n)] refuses fewer than one worker. *)
Definition start_pool (n : Z) : M unit :=
  if n <? 1 then raise ValueError else ret tt.

(** [analyzed_imgs[fn] = pool.apply_async(mm3.get_tif_params, ...)] *)
Definition submit (w : World) (imgs : Dict ImgEntry) (fn : string)
  : M (Dict ImgEntry) :=
  ret (dict_set imgs fn (Pending (get_tif_params w fn))).

(** The body of the loop of lines 171-176. *)
Definition collect (imgs : Dict ImgEntry) (fn : string)
  : M (Dict ImgEntry) :=
  match dict_get imgs fn with
  | None => raise (KeyError fn)
  | Some (Pending (Some m)) => ret (dict_set imgs fn (Meta m))
  | Some (Pending None) => ret (dict_set imgs fn Failed)
  | Some _ => raise AttributeError
  end.

Definition peaks_metadata (cfg : Config) (w : World)
    (found_files : list string) : M (Dict ImgEntry) :=
  start_pool (analyzers cfg) ;;
  analyzed_imgs <- for_each found_files (submit w) [] ;;
  information "Waiting for image analysis pool to be finished." ;;
  information "Image analyses pool finished, getting results." ;;
  for_each (keys analyzed_imgs) collect analyzed_imgs.

(** *** Segmentation strategy (lines 180-368) *)

(** Lines 185-188: the [--modelfile] argument, when given, overrides the
    parameter file. *)
Definition model_file_path (cfg : Config) : string :=
  match modelfile cfg with
  | Some path => if String.eqb path "" then model_file_traps cfg else path
  | None => model_file_traps cfg
  end.

(** [analyzed_imgs[fn] = mm3.get_initial_tif_params(fn)] *)
Definition read_params (w : World) (imgs : Dict ImgEntry) (fn : string)
  : M (Dict ImgEntry) :=
  m <- lift (get_initial_tif_params w fn) ;;
  ret (dict_set imgs fn (Meta m)).

(** [analyzed_imgs[fn]['channels'] = trap_closed_end_px_dict[fn]] *)
Definition set_channels (closed_end : Dict Channels)
    (imgs : Dict ImgEntry) (fn : string) : M (Dict ImgEntry) :=
  match dict_get imgs fn with
  | None => raise (KeyError fn)
  | Some (Meta m) =>
      match dict_get closed_end fn with
      | None => raise (KeyError fn)
      | Some ch =>
          ret (dict_set imgs fn
                 (Meta (mkMetadata (fov m) (t m) (planes m) (Some ch))))
      end
  | Some _ => raise TypeError
  end.

(** [file_names[0]] *)
Definition first_name (file_names : list string) : M string :=
  match file_names with
  | [] => raise IndexError
  | fn :: _ => ret fn
  end.

(** Lines 227-228: the keys of [analyzed_imgs], sorted as strings. *)
Definition sorted_file_names (analyzed_imgs : Dict ImgEntry) : list string :=
  sort_names (keys analyzed_imgs).

Definition warn_out_of_bounds (ws : list (Z * nat)) : M unit :=
  for_each ws (fun _ p => emit (OutOfBoundsWarning (fst p) (snd p))) tt.

Definition unet_metadata (cfg : Config) (w : World)
    (found_files : list string) : M (Dict ImgEntry * TrapImages) :=
  information
    "Identifying channel locations and aligning images using U-net." ;;
  information "Loading model..." ;;
  lift (load_model w (model_file_path cfg)) ;;
  information "Model loaded." ;;
  analyzed_imgs <- for_each found_files (read_params w) [] ;;
  information "Waiting for image metadata pool to be finished." ;;
  information "Image metadata pool finished, getting results." ;;
  let file_names := sorted_file_names analyzed_imgs in
  first_frame_name <- first_name file_names ;;
  lift (read_first_frame w first_frame_name) ;;
  print "Predicting trap locations for first frame." ;;
  first <- lift (detect_traps w first_frame_name) ;;
  centroid <- lift (RefCrop.anchor_centroid (dilated_centroids first)
                                            (frame_rows first)) ;;
  lift (crop_frames w file_names centroid) ;;
  print
    "Predicting trap regions for (512,512) slice through all frames." ;;
  '(align_trap_props, labelled) <- lift (align_regions w file_names centroid) ;;
  let labelled := filter_stack align_trap_props labelled in
  integer_shifts <-
    lift (Float64.estimate_shifts (regionprops_centroids w) labelled) ;;
  let '(bbox_shift_dict, warnings) :=
    Shifter.shift_bounding_boxes (good_trap_bboxes first) integer_shifts
                                 (frame_rows first) in
  warn_out_of_bounds warnings ;;
  '(trap_images_dict, closed_end) <-
    lift (crop_traps w file_names bbox_shift_dict) ;;
  analyzed_imgs <- for_each file_names (set_channels closed_end)
                            analyzed_imgs ;;
  ret (analyzed_imgs, trap_images_dict).

(** *** The metadata stage (lines 106-377) *)

(** The stage returns [analyzed_imgs] and, when the segmentation path
    ran, [trap_images_dict]. *)
Definition metadata_stage (cfg : Config) (w : World)
  : M (Dict ImgEntry * option TrapImages) :=
  if negb (do_metadata cfg) then
    information "Loading image parameters dictionary." ;;
    analyzed_imgs <- lift (load_metadata w) ;;
    ret (analyzed_imgs, None)
  else
    information "Finding image parameters." ;;
    found_files <- find_files cfg w ;;
    '(analyzed_imgs, trap_images_dict) <-
      (if String.eqb (find_channels_method cfg) "peaks" then
         analyzed_imgs <- peaks_metadata cfg w found_files ;;
         ret (analyzed_imgs, None)
       else if String.eqb (find_channels_method cfg) "Unet" then
         '(analyzed_imgs, trap_images_dict) <-
           unet_metadata cfg w found_files ;;
         ret (analyzed_imgs, Some trap_images_dict)
       else ret ([], None)) ;;
    information "Saving metadata from analyzed images..." ;;
    emit (SaveMetadata analyzed_imgs) ;;
    information "Saved metadata from analyzed images." ;;
    ret (analyzed_imgs, trap_images_dict).

(** *** Time table (lines 380-383) *)

Definition time_table_stage (cfg : Config) (w : World)
    (analyzed_imgs : Dict ImgEntry) : M unit :=
  if negb (do_time_table cfg)
  then information "Skipping time table creation."
  else lift (make_time_table w analyzed_imgs).

(** *** Channel masks (lines 386-396) *)

(** [i_metadata['t'] <= t_end] *)
Definition before_t_end (t_end : Z) (v : ImgEntry) : result bool :=
  match v with
  | Meta m => Ok (t m <=? t_end)
  | _ => Raise TypeError
  end.

Fixpoint filter_items {K V} (keep : V -> result bool) (items : list (K * V))
  : result (list (K * V)) :=
  match items with
  | [] => Ok []
  | (k, v) :: rest =>
      match keep v with
      | Raise e => Raise e
      | Ok b =>
          match filter_items keep rest with
          | Raise e => Raise e
          | Ok rest' => Ok (if b then (k, v) :: rest' else rest')
          end
      end
  end.

(** The stage returns the (possibly rebound) [analyzed_imgs] and
    [channel_masks] when it was assigned. *)
Definition masks_stage (cfg : Config) (w : World)
    (analyzed_imgs : Dict ImgEntry)
  : M (Dict ImgEntry * option ChannelMasks) :=
  if negb (do_channel_masks cfg) && do_slicing cfg then
    channel_masks <- lift (load_channel_masks w) ;;
    ret (analyzed_imgs, Some channel_masks)
  else if do_channel_masks cfg then
    analyzed_imgs <-
      (match t_end cfg with
       | Some v =>
           if truthy_t_end (t_end cfg) then
             items <- six_iteritems analyzed_imgs ;;
             lift (filter_items (before_t_end v) items)
           else ret analyzed_imgs
       | None => ret analyzed_imgs
       end) ;;
    channel_masks <- lift (make_masks w analyzed_imgs) ;;
    ret (analyzed_imgs, Some channel_masks)
  else ret (analyzed_imgs, None).

(** *** Slicing (lines 399-436) *)

(** [v['fov'] == fov] *)
Definition in_fov (fov_id : Z) (v : ImgEntry) : result bool :=
  match v with
  | Meta m => Ok (fov m =? fov_id)
  | _ => Raise TypeError
  end.

(** [[k, v['t']]] *)
Definition name_and_t (kv : string * ImgEntry) : string * Z :=
  match snd kv with
  | Meta m => (fst kv, t m)
  | _ => (fst kv, 0)
  end.

(** [sorted(send_to_write, key=lambda time: time[1])] *)
Definition sort_by_t : list (string * Z) -> list (string * Z) :=
  py_sorted (fun a b => snd a <=? snd b).

(** Lines 415-418 from the filter on: the comprehension's test and
    element, and the sort, applied to the items [six.iteritems] yields.
    Evaluating [six.iteritems] itself comes first and is part of
    [slice_fov], where it raises [NameError]. *)
Definition send_to_write (items : list (string * ImgEntry)) (fov_id : Z)
  : result (list (string * Z)) :=
  match filter_items (in_fov fov_id) items with
  | Raise e => Raise e
  | Ok kept => Ok (sort_by_t (map name_and_t kept))
  end.

(** The body of the loop over the fields of view (lines 408-426). *)
Definition slice_fov (cfg : Config) (w : World)
    (channel_masks : ChannelMasks) (analyzed_imgs : Dict ImgEntry)
    (_ : unit) (entry : Z * list Z) : M unit :=
  let fov_id := fst entry in
  if (0 <? length (user_spec_fovs cfg))%nat
     && negb (existsb (Z.eqb fov_id) (user_spec_fovs cfg))
  then ret tt
  else
    information ("Loading images for FOV " ++ fmt_0d 3 fov_id ++ ".")%string ;;
    items <- six_iteritems analyzed_imgs ;;
    to_write <- lift (send_to_write items fov_id) ;;
    if String.eqb (output cfg) "TIFF" then
      emit (TiffStackSliceAndWrite to_write) ;;
      lift (tiff_stack_slice_and_write w to_write channel_masks analyzed_imgs)
    else if String.eqb (output cfg) "HDF5" then
      emit (Hdf5StackSliceAndWrite to_write) ;;
      lift (hdf5_stack_slice_and_write w to_write channel_masks analyzed_imgs)
    else ret tt.

Definition slicing_stage (cfg : Config) (w : World)
    (analyzed_imgs : Dict ImgEntry) (channel_masks : option ChannelMasks)
    (trap_images_dict : option TrapImages) : M unit :=
  if do_slicing cfg then
    information "Saving channel slices." ;;
    (if String.eqb (find_channels_method cfg) "peaks" then
       global_name "six" ;;
       masks <- variable "channel_masks" channel_masks ;;
       for_each masks (slice_fov cfg w masks analyzed_imgs) tt
     else if String.eqb (find_channels_method cfg) "Unet" then
       if String.eqb (output cfg) "TIFF" then
         images <- variable "trap_images_dict" trap_images_dict ;;
         emit (SaveTiffs images) ;;
         lift (save_tiffs w images analyzed_imgs)
       else ret tt
     else ret tt) ;;
    information "Channel slices saved."
  else ret tt.

(** *** The whole script *)

(** Everything up to the slicing stage; the result is the module state
    slicing reads. *)
Definition before_slicing (cfg : Config) (w : World)
  : M (Dict ImgEntry * option ChannelMasks * option TrapImages) :=
  setup cfg w ;;
  '(analyzed_imgs, trap_images_dict) <- metadata_stage cfg w ;;
  time_table_stage cfg w analyzed_imgs ;;
  '(analyzed_imgs, channel_masks) <- masks_stage cfg w analyzed_imgs ;;
  ret (analyzed_imgs, channel_masks, trap_images_dict).

Definition main (cfg : Config) (w : World) : M unit :=
  '(analyzed_imgs, channel_masks, trap_images_dict) <- before_slicing cfg w ;;
  slicing_stage cfg w analyzed_imgs channel_masks trap_images_dict.

(** The events of a run that persist channel stacks. *)
Definition writes {A} (m : M A) : list Event := filter is_write (trace m).

(** The log lines of a run. *)
Definition is_log (e : Event) : bool :=
  match e with
  | Information _ | Warning _ | Print _ => true
  | _ => false
  end.

Definition log {A} (m : M A) : list Event := filter is_log (trace m).

End Script.

(** ** Sample inputs *)

Module Sample.

Import Drift Script.
Local Open Scope string_scope.
Local Open Scope Z_scope.
Local Open Scope list_scope.

(** The centroids [skimage.measure.regionprops] reports for a label
    image: one per non-zero label, in ascending label order, each the
    mean pixel position of the label. *)
Definition coords (img : LabelImage) : list (Z * (Z * Z)) :=
  flat_map
    (fun row => map (fun px => (snd px, (Z.of_nat (fst row), Z.of_nat (fst px))))
                    (combine (seq 0 (length (snd row))) (snd row)))
    (combine (seq 0 (length img)) img).

Definition labels_of (img : LabelImage) : list Z :=
  map fst (np_unique_counts
             (filter (fun v => negb (v =? 0)) (map fst (coords img)))).

Definition centroid_of (img : LabelImage) (lbl : Z) : Float64.Centroid :=
  let ps := filter (fun p => fst p =? lbl) (coords img) in
  (Float64.np_mean (map (fun p => Float64.of_Z (fst (snd p))) ps),
   Float64.np_mean (map (fun p => Float64.of_Z (snd (snd p))) ps)).

Definition centroids_of_image (img : LabelImage) : list Float64.Centroid :=
  map (centroid_of img) (labels_of img).

(** Metadata read off a file name of the form [e_t<time>xy<fov>.tif]
    for the sample files below. *)
Definition sample_params (fn : string) : option Metadata :=
  if String.eqb fn "e_t0001xy01.tif" then Some (mkMetadata 1 1 ["c1"] None)
  else if String.eqb fn "e_t0002xy01.tif" then Some (mkMetadata 1 2 ["c1"] None)
  else if String.eqb fn "e_t999xy01.tif" then Some (mkMetadata 1 999 ["c1"] None)
  else if String.eqb fn "e_t1000xy01.tif"
       then Some (mkMetadata 1 1000 ["c1"] None)
  else None.

(** A world in which every collaborator succeeds; [paths] is what the
    glob finds, [worker] what the pooled extraction yields per file and
    [aligned] the regions and labelled stack of the alignment crops. *)
Definition world_with (first : FirstFrame) (paths : list string)
    (worker : string -> option Metadata)
    (aligned : list TrapRegion * LabelStack) : World :=
  {| path_exists := fun _ => true;
     glob_tiffs := paths;
     load_metadata := Ok [];
     get_tif_params := worker;
     get_initial_tif_params :=
       fun fn => match sample_params fn with
                 | Some m => Ok m
                 | None => Raise (HelperError "get_initial_tif_params")
                 end;
     load_model := fun _ => Ok tt;
     read_first_frame := fun _ => Ok tt;
     detect_traps := fun _ => Ok first;
     crop_frames := fun _ _ => Ok tt;
     align_regions := fun _ _ => Ok aligned;
     regionprops_centroids := centroids_of_image;
     crop_traps :=
       fun names boxes =>
         Ok (map (fun fn =>
                    (fn, map (fun kv => (fst kv, hd Shifter.OutOfBounds (snd kv)))
                             boxes)) names,
             map (fun fn => (fn, [(1, 900)])) names);
     make_time_table := fun _ => Ok tt;
     load_channel_masks := Ok [(1, [1])];
     make_masks := fun _ => Ok [(1, [1])];
     tiff_stack_slice_and_write := fun _ _ _ => Ok tt;
     hdf5_stack_slice_and_write := fun _ _ _ => Ok tt;
     save_tiffs := fun _ _ => Ok tt |}.

(** A first frame of 2048 rows with one trap region at its centre. *)
Definition first_centred : FirstFrame :=
  mkFirstFrame 2048 [(1000 # 1, 1000 # 1)]%Q
               [(1, Shifter.mkBBox 900 990 1100 1010)].

(** A first frame whose two trap regions sit at its upper and lower
    edge: neither admits a (512,512) crop. *)
Definition first_at_edges : FirstFrame :=
  mkFirstFrame 2048 [(100 # 1, 1000 # 1); (2000 # 1, 1000 # 1)]%Q
               [(1, Shifter.mkBBox 0 990 200 1010);
                (2, Shifter.mkBBox 1900 990 2048 1010)].

Definition world := world_with first_centred.

Definition config (method out : string) (slicing : bool) : Config :=
  {| user_spec_fovs := [];
     nproc := None;
     modelfile := None;
     num_analyzers := 4;
     t_end := None;
     ana_dir := "analysis";
     chnl_dir := "analysis/channels";
     hdf5_dir := "analysis/hdf5";
     output := out;
     do_metadata := true;
     do_time_table := false;
     do_channel_masks := slicing;
     do_slicing := slicing;
     find_channels_method := method;
     model_file_traps := "traps.hdf5" |}.

Definition two_paths : list string :=
  ["/data/TIFF/e_t0001xy01.tif"; "/data/TIFF/e_t0002xy01.tif"].

(** Two frames in which the same two traps are found, one pixel lower
    in the second frame. *)
Definition aligned_steady : list TrapRegion * LabelStack :=
  ([mkRegion 1 2; mkRegion 2 2; mkRegion 3 2; mkRegion 4 2],
   [ [[1; 1; 0]; [0; 2; 2]; [0; 0; 0]];
     [[0; 0; 0]; [3; 3; 0]; [0; 4; 4]] ]).

(** Two frames of 3 x 7 pixels as [measure.label] returns them for a
    stack of trap masks (full connectivity in three dimensions, labels
    in raster order).  Frame 0 holds two traps of two pixels, in columns
    0 and 4.  In frame 1 the traps have drifted two columns to the
    right and segmentation noise has left one pixel of the second one.
    No region touches another, within a frame or across the frames, so
    the stack has four components; the area of each is its number of
    pixels.  The area filter rejects label 4 and leaves frame 1 with one
    region where frame 0 has two. *)
Definition aligned_mismatch : list TrapRegion * LabelStack :=
  ([mkRegion 1 2; mkRegion 2 2; mkRegion 3 2; mkRegion 4 1],
   [ [[1; 0; 0; 0; 2; 0; 0]; [1; 0; 0; 0; 2; 0; 0]; [0; 0; 0; 0; 0; 0; 0]];
     [[0; 0; 3; 0; 0; 0; 4]; [0; 0; 3; 0; 0; 0; 0]; [0; 0; 0; 0; 0; 0; 0]] ]).

(** The worker for the second file fails. *)
Definition worker_one_fails (fn : string) : option Metadata :=
  if String.eqb fn "e_t0002xy01.tif" then None else sample_params fn.


(** Two frames of two centroids whose row displacements, in float64,
    are [0.5000000000000001] and [0.5]: their float64 sum is [1.0]. *)
Definition float_centroids_first : list Float64.Centroid :=
  [(PrimFloat.div (Float64.of_Z 4) (Float64.of_Z 6), Float64.of_Z 10);
   (Float64.of_Z 1, Float64.of_Z 20)].
Definition float_centroids_later : list Float64.Centroid :=
  [(PrimFloat.div (Float64.of_Z 7) (Float64.of_Z 6), Float64.of_Z 12);
   (PrimFloat.div (Float64.of_Z 3) (Float64.of_Z 2), Float64.of_Z 23)].

End Sample.

Local Open Scope string_scope.
Local Open Scope Z_scope.
Local Open Scope list_scope.

(** ** Notions used by the further properties *)

(** The files the script goes on with (lines 116-139), as a value. *)
Definition found_files (cfg : Script.Config) (w : Script.World)
  : list string :=
  let sorted := Script.sort_names (map Script.basename (Script.glob_tiffs w)) in
  let cut :=
    match Script.t_end cfg with
    | Some v => if Script.truthy_t_end (Script.t_end cfg)
                then Script.cut_at_t_end v sorted else sorted
    | None => sorted
    end in
  if (0 <? length (Script.user_spec_fovs cfg))%nat
  then Script.filter_fovs (Script.user_spec_fovs cfg) cut
  else cut.

(** The event that persists the metadata table. *)
Definition is_save (e : Script.Event) : bool :=
  match e with
  | Script.SaveMetadata _ => true
  | _ => false
  end.


(** A record with channel geometry. *)
Definition has_channels (d : Script.Dict Script.ImgEntry) (fn : string) : Prop :=
  exists m ch, Script.dict_get d fn = Some (Script.Meta m) /\ Script.channels m = Some ch.

(** A run that starts from saved metadata: the metadata stage is off. *)
Definition config_without_metadata : Script.Config :=
  {| Script.user_spec_fovs := [];
     Script.nproc := None;
     Script.modelfile := None;
     Script.num_analyzers := 4;
     Script.t_end := None;
     Script.ana_dir := "analysis";
     Script.chnl_dir := "analysis/channels";
     Script.hdf5_dir := "analysis/hdf5";
     Script.output := "TIFF";
     Script.do_metadata := false;
     Script.do_time_table := false;
     Script.do_channel_masks := false;
     Script.do_slicing := true;
     Script.find_channels_method := "Unet";
     Script.model_file_traps := "traps.hdf5" |}.

(** * Properties *)

Import Drift.
Local Open Scope string_scope.
Local Open Scope Z_scope.
Local Open Scope list_scope.

(** ** Modal-area filtering *)

Section ModeFacts.

Lemma lookup_above (t : list (Z * nat)) (x : Z) :
  Forall (fun e => x < fst e) t -> lookup t x = None.
Proof.
  induction 1 as [|[w c] t' Hlt _ IH]; simpl; [reflexivity|].
  simpl in Hlt. destruct (Z.eqb_spec x w); [lia | exact IH].
Qed.

Lemma bump_above (t : list (Z * nat)) (x w : Z) :
  w < x -> Forall (fun e => w < fst e) t ->
  Forall (fun e => w < fst e) (bump x t).
Proof.
  intros Hwx. induction 1 as [|[u c] t' Hu Ht IH]; simpl.
  - constructor; [exact Hwx | constructor].
  - simpl in Hu.
    destruct (x <? u); [|destruct (x =? u)];
      repeat (constructor; simpl; auto).
Qed.

Lemma bump_ascending (t : list (Z * nat)) (x : Z) :
  ascending t -> ascending (bump x t).
Proof.
  unfold ascending. induction 1 as [|[w c] t' Hs IH Hall]; simpl.
  - repeat constructor.
  - destruct (Z.ltb_spec x w) as [Hlt|Hge].
    + constructor; [constructor; assumption|].
      constructor; [exact Hlt|].
      eapply Forall_impl; [|exact Hall]. simpl. intros; lia.
    + destruct (Z.eqb_spec x w) as [->|Hne].
      * constructor; assumption.
      * constructor; [exact IH|].
        apply bump_above; [simpl; lia | exact Hall].
Qed.

Lemma bump_lookup (t : list (Z * nat)) (x v : Z) :
  ascending t ->
  lookup (bump x t) v =
  if v =? x
  then Some (S (match lookup t x with Some c => c | None => O end))
  else lookup t v.
Proof.
  unfold ascending. induction 1 as [|[w c] t' Hs IH Hall]; simpl.
  - reflexivity.
  - destruct (Z.ltb_spec x w) as [Hlt|Hge]; simpl.
    + destruct (Z.eqb_spec v x) as [->|Hne]; [|reflexivity].
      destruct (Z.eqb_spec x w); [lia|].
      rewrite lookup_above; [reflexivity|].
      eapply Forall_impl; [|exact Hall]. simpl. intros; lia.
    + destruct (Z.eqb_spec x w) as [->|Hne]; simpl.
      * destruct (Z.eqb_spec v w); reflexivity.
      * rewrite IH.
        destruct (Z.eqb_spec v w) as [->|Hvw].
        -- destruct (Z.eqb_spec w x); [congruence | reflexivity].
        -- reflexivity.
Qed.

Lemma unique_ascending (a : list Z) : ascending (np_unique_counts a).
Proof.
  induction a as [|x a IH]; simpl.
  - constructor.
  - apply bump_ascending, IH.
Qed.

Lemma unique_lookup (a : list Z) (v : Z) :
  lookup (np_unique_counts a) v =
  match count_occ Z.eq_dec a v with
  | O => None
  | S n => Some (S n)
  end.
Proof.
  induction a as [|x a IH]; simpl; [reflexivity|].
  rewrite bump_lookup by apply unique_ascending.
  destruct (Z.eq_dec x v) as [->|Hne].
  - rewrite Z.eqb_refl, IH.
    destruct (count_occ Z.eq_dec a v); reflexivity.
  - destruct (Z.eqb_spec v x); [congruence | exact IH].
Qed.

Lemma lookup_In (t : list (Z * nat)) (v : Z) (c : nat) :
  ascending t -> In (v, c) t -> lookup t v = Some c.
Proof.
  unfold ascending. induction 1 as [|[w d] t' Hs IH Hall]; simpl.
  - contradiction.
  - intros [Heq|Hin].
    + injection Heq as -> ->. now rewrite Z.eqb_refl.
    + destruct (Z.eqb_spec v w) as [->|Hne]; [|auto].
      rewrite Forall_forall in Hall. specialize (Hall _ Hin). simpl in Hall.
      lia.
Qed.

Lemma In_lookup (t : list (Z * nat)) (v : Z) (c : nat) :
  lookup t v = Some c -> In (v, c) t.
Proof.
  induction t as [|[w d] t' IH]; simpl; [discriminate|].
  destruct (Z.eqb_spec v w) as [->|Hne].
  - intros [= ->]. now left.
  - intros H. right. auto.
Qed.

Lemma argmax_first_none (t : list (Z * nat)) :
  argmax_first t = None -> t = [].
Proof.
  destruct t as [|[v c] t']; simpl; [reflexivity|].
  destruct (argmax_first t') as [[? ?]|];
    [destruct (_ <=? _)%nat|]; discriminate.
Qed.

Lemma argmax_first_max (t : list (Z * nat)) (v : Z) (c : nat) :
  argmax_first t = Some (v, c) ->
  In (v, c) t /\ forall w d, In (w, d) t -> (d <= c)%nat.
Proof.
  revert v c. induction t as [|[u k] t' IH]; simpl; [discriminate|].
  intros v c. destruct (argmax_first t') as [[w1 d1]|] eqn:E.
  - destruct (IH _ _ eq_refl) as [Hin Hmax].
    destruct (Nat.leb_spec d1 k) as [Hle|Hgt]; intros [= <- <-].
    + split; [now left|]. intros w d [[= <- <-]|Hw]; [lia|].
      specialize (Hmax _ _ Hw). lia.
    + split; [now right|]. intros w d [[= <- <-]|Hw]; [lia|].
      exact (Hmax _ _ Hw).
  - intros [= <- <-]. apply argmax_first_none in E. subst t'.
    split; [now left|]. intros w d [[= <- <-]|[]]. lia.
Qed.

Lemma argmax_first_smallest (t : list (Z * nat)) (v : Z) (c : nat) :
  ascending t -> argmax_first t = Some (v, c) ->
  forall w, In (w, c) t -> v <= w.
Proof.
  unfold ascending. intros Hs. revert v c.
  induction Hs as [|[u k] t' Hs IH Hall]; simpl; [discriminate|].
  intros v c. rewrite Forall_forall in Hall.
  destruct (argmax_first t') as [[w1 d1]|] eqn:E.
  - destruct (Nat.leb_spec d1 k) as [Hle|Hgt]; intros [= <- <-].
    + intros w [[= <-]|Hw]; [lia|]. specialize (Hall _ Hw). simpl in Hall. lia.
    + intros w [[= <- Hk]|Hw]; [lia|]. exact (IH _ _ eq_refl _ Hw).
  - intros [= <- <-] w [[= <-]|Hw]; [lia|].
    specialize (Hall _ Hw). simpl in Hall. lia.
Qed.

(** [stats.mode] returns a value of the array that no other value
    outnumbers, and the smallest such value. *)
Lemma stats_mode_most_frequent (areas : list Z) (m : Z) :
  stats_mode areas = Some m ->
  In m areas
  /\ (forall a, (count_occ Z.eq_dec areas a
                 <= count_occ Z.eq_dec areas m)%nat)
  /\ (forall a, count_occ Z.eq_dec areas a = count_occ Z.eq_dec areas m ->
                 m <= a).
Proof.
  unfold stats_mode. intros H.
  destruct (argmax_first (np_unique_counts areas)) as [[v c]|] eqn:E;
    [|discriminate].
  simpl in H. injection H as ->.
  pose proof (unique_ascending areas) as Hasc.
  destruct (argmax_first_max _ _ _ E) as [Hin Hmax].
  pose proof (lookup_In _ _ _ Hasc Hin) as Hl.
  rewrite unique_lookup in Hl.
  destruct (count_occ Z.eq_dec areas m) as [|n] eqn:Hm; [discriminate|].
  injection Hl as <-.
  assert (forall a k, count_occ Z.eq_dec areas a = S k ->
                      In (a, S k) (np_unique_counts areas)) as Hentry.
  { intros a k Ha. apply In_lookup. rewrite unique_lookup, Ha. reflexivity. }
  split; [|split].
  - apply (count_occ_In Z.eq_dec). lia.
  - intros a. destruct (count_occ Z.eq_dec areas a) as [|k] eqn:Ha; [lia|].
    exact (Hmax _ _ (Hentry _ _ Ha)).
  - intros a Ha. eapply argmax_first_smallest; eauto.
Qed.

Lemma stats_mode_some (areas : list Z) :
  areas <> [] -> exists m, stats_mode areas = Some m.
Proof.
  intros Hne. unfold stats_mode.
  destruct (argmax_first (np_unique_counts areas)) as [[v c]|] eqn:E.
  - now exists v.
  - exfalso. destruct areas as [|x a]; [congruence|].
    pose proof (unique_lookup (x :: a) x) as Hl.
    apply argmax_first_none in E. rewrite E in Hl.
    simpl in Hl. destruct (Z.eq_dec x x); [discriminate | congruence].
Qed.

End ModeFacts.

Section FilterFacts.

Lemma classify_fold (m : option Z) (props good : list TrapRegion)
    (bad : list Z) :
  fold_left (classify_step m) props (good, bad) =
  (good ++ filter (fun trap => negb (area_differs (area trap) m)) props,
   bad ++ map label (filter (fun trap => area_differs (area trap) m) props)).
Proof.
  revert good bad. induction props as [|trap props IH]; intros good bad.
  - simpl. now rewrite !app_nil_r.
  - simpl. destruct (area_differs (area trap) m); simpl; rewrite IH.
    + now rewrite <- app_assoc.
    + now rewrite <- app_assoc.
Qed.

Lemma area_differs_false (a : Z) (m : option Z) :
  area_differs a m = false <-> m = Some a.
Proof.
  destruct m as [v|]; simpl.
  - destruct (Z.eqb_spec a v); simpl; split; congruence.
  - split; discriminate.
Qed.

Lemma good_align_trap_props_In (props : list TrapRegion) (trap : TrapRegion) :
  In trap (good_align_trap_props props) <->
  In trap props /\ stats_mode (map area props) = Some (area trap).
Proof.
  unfold good_align_trap_props, classify. rewrite classify_fold. simpl.
  rewrite filter_In, negb_true_iff, area_differs_false. reflexivity.
Qed.

Lemma bad_align_trap_props_In (props : list TrapRegion) (lbl : Z) :
  In lbl (bad_align_trap_props props) <->
  exists trap, In trap props /\ label trap = lbl
               /\ stats_mode (map area props) <> Some (area trap).
Proof.
  unfold bad_align_trap_props, classify. rewrite classify_fold. simpl.
  rewrite in_map_iff. split.
  - intros [trap [Hl Hin]]. apply filter_In in Hin. destruct Hin as [Hin Hd].
    exists trap. repeat split; auto.
    intros Hm. apply area_differs_false in Hm. congruence.
  - intros [trap [Hin [Hl Hm]]]. exists trap. split; [exact Hl|].
    apply filter_In. split; [exact Hin|].
    destruct (area_differs (area trap) _) eqn:E; [reflexivity|].
    apply area_differs_false in E. contradiction.
Qed.

Lemma zero_labels_pixelwise (bad : list Z) (stack : LabelStack) :
  zero_labels bad stack = map (map (map (keep_unless bad))) stack.
Proof.
  unfold zero_labels. revert stack.
  induction bad as [|lbl bad IH]; intros stack; simpl.
  - unfold keep_unless. simpl.
    rewrite <- (map_id stack) at 1. apply map_ext. intros img.
    rewrite <- (map_id img) at 1. apply map_ext. intros row.
    rewrite <- (map_id row) at 1. reflexivity.
  - rewrite IH. unfold zero_label. rewrite map_map. apply map_ext.
    intros img. rewrite map_map. apply map_ext. intros row.
    rewrite map_map. apply map_ext. intros v. unfold keep_unless. simpl.
    destruct (Z.eqb_spec v lbl) as [->|Hne].
    + simpl. now destruct (existsb (Z.eqb 0) bad).
    + reflexivity.
Qed.

End FilterFacts.

(** C1: drift estimation keeps exactly the regions whose area is the
    mode of the areas of the whole batch.  A non-empty batch has a mode;
    [mode_area] is a most frequent area; a region is accepted if and
    only if its area equals the mode, and its label is listed as bad if
    and only if its area differs; the labelled stack keeps its shape and
    every pixel carrying a bad label is set to the background label 0
    while all others are untouched.  For areas [100,100,100,55] the mode
    is 100 and only the area-55 region is rejected. *)
Theorem modal_area_filter :
  (forall props, props <> [] -> exists m, stats_mode (map area props) = Some m)
  /\ (forall props m,
         stats_mode (map area props) = Some m ->
         In m (map area props)
         /\ forall a, (count_occ Z.eq_dec (map area props) a
                       <= count_occ Z.eq_dec (map area props) m)%nat)
  /\ (forall props trap,
         In trap (good_align_trap_props props) <->
         In trap props /\ stats_mode (map area props) = Some (area trap))
  /\ (forall props lbl,
         In lbl (bad_align_trap_props props) <->
         exists trap, In trap props /\ label trap = lbl
                      /\ stats_mode (map area props) <> Some (area trap))
  /\ (forall props stack,
         filter_stack props stack =
         map (map (map (fun v =>
           if existsb (Z.eqb v) (bad_align_trap_props props) then 0 else v)))
           stack)
  /\ (forall l1 l2 l3 l4,
         let props := [mkRegion l1 100; mkRegion l2 100; mkRegion l3 100;
                       mkRegion l4 55] in
         stats_mode (map area props) = Some 100
         /\ good_align_trap_props props =
            [mkRegion l1 100; mkRegion l2 100; mkRegion l3 100]
         /\ bad_align_trap_props props = [l4]).
Proof.
  split; [|split; [|split; [|split; [|split]]]].
  - intros props Hne. apply stats_mode_some.
    destruct props; [congruence | discriminate].
  - intros props m Hm.
    destruct (stats_mode_most_frequent _ _ Hm) as [Hin [Hmax _]]. auto.
  - exact good_align_trap_props_In.
  - exact bad_align_trap_props_In.
  - intros props stack. unfold filter_stack.
    now rewrite zero_labels_pixelwise.
  - intros l1 l2 l3 l4. cbv zeta. repeat split.
Qed.

(** ** Shift estimation *)

Section ShiftFacts.

Lemma round_nearest (x : Q) :
  (Qabs (inject_Z (Np.round x) - x) <= 1 # 2)%Q.
Proof.
  apply Qabs_Qle_condition.
  pose proof (Qfloor_le x) as Hlo. pose proof (Qlt_floor x) as Hhi.
  rewrite inject_Z_plus in Hhi.
  unfold Np.round.
  destruct (Qcompare (x - inject_Z (Qfloor x)) (1 # 2)) eqn:E.
  - apply Qeq_alt in E.
    destruct (Z.even (Qfloor x)); [|rewrite inject_Z_plus];
      change (inject_Z 1) with 1%Q in *; split; lra.
  - apply Qlt_alt in E. change (inject_Z 1) with 1%Q in *. split; lra.
  - apply Qgt_alt in E. rewrite inject_Z_plus.
    change (inject_Z 1) with 1%Q in *. split; lra.
Qed.

Lemma round_ties_even (x : Q) :
  (Qabs (inject_Z (Np.round x) - x) == 1 # 2)%Q ->
  Z.even (Np.round x) = true.
Proof.
  pose proof (Qfloor_le x) as Hlo. pose proof (Qlt_floor x) as Hhi.
  rewrite inject_Z_plus in Hhi. change (inject_Z 1) with 1%Q in Hhi.
  unfold Np.round.
  destruct (Qcompare (x - inject_Z (Qfloor x)) (1 # 2)) eqn:E.
  - intros _. destruct (Z.even (Qfloor x)) eqn:Hev; [exact Hev|].
    rewrite Z.even_add, Hev. reflexivity.
  - apply Qlt_alt in E. intros H. exfalso.
    rewrite Qabs_neg in H by lra. lra.
  - apply Qgt_alt in E. rewrite inject_Z_plus.
    change (inject_Z 1) with 1%Q. intros H. exfalso.
    rewrite Qabs_pos in H by lra. lra.
Qed.

Lemma round_bounded (x : Q) (b : Z) :
  (- inject_Z b <= x)%Q -> (x <= inject_Z b)%Q -> - b <= Np.round x <= b.
Proof.
  intros Hlo Hhi.
  pose proof (round_nearest x) as H. apply Qabs_Qle_condition in H.
  destruct H as [H1 H2].
  assert (inject_Z (Np.round x) <= inject_Z b + (1#2))%Q as Hu by lra.
  assert (- inject_Z b - (1#2) <= inject_Z (Np.round x))%Q as Hl by lra.
  revert Hu Hl. generalize (Np.round x). intros r.
  unfold Qle, Qplus, Qminus, Qopp, Qplus, inject_Z. simpl. lia.
Qed.

Lemma astype_int16_small (z : Z) :
  -32768 <= z < 32768 -> Np.astype_int16 z = z.
Proof.
  intros H. unfold Np.astype_int16. rewrite Z.mod_small; lia.
Qed.


End ShiftFacts.

Section EstimateFacts.


(** The shape test of [np_asarray], read back. *)
Lemma np_asarray_Array3 (cs frames : list (list Centroid)) :
  np_asarray cs = Array3 frames ->
  frames = cs
  /\ exists first rest,
       cs = first :: rest /\ first <> []
       /\ Forall (fun fc => length fc = length first) rest.
Proof.
  unfold np_asarray. destruct cs as [|first rest]; [discriminate|].
  destruct (0 <? length first)%nat eqn:Hpos; simpl; [|discriminate].
  destruct (forallb (same_length first) rest) eqn:Hall; [|discriminate].
  intros [= <-]. split; [reflexivity|]. exists first, rest.
  split; [reflexivity|]. split.
  - destruct first; [discriminate Hpos | discriminate].
  - apply Forall_forall. intros fc Hin.
    rewrite forallb_forall in Hall. specialize (Hall _ Hin).
    now apply Nat.eqb_eq in Hall.
Qed.

Lemma integer_shifts_irregular (first : list Centroid)
    (rest : list (list Centroid)) :
  (exists fc, In fc rest /\ length fc <> length first) ->
  integer_shifts (first :: rest) = Raise IndexError.
Proof.
  intros [fc [Hin Hlen]]. unfold integer_shifts.
  destruct (np_asarray (first :: rest)) as [frames|] eqn:E; [|reflexivity].
  exfalso. apply np_asarray_Array3 in E.
  destruct E as [_ (first' & rest' & [= <- <-] & _ & Hall)].
  rewrite Forall_forall in Hall. exact (Hlen (Hall _ Hin)).
Qed.


End EstimateFacts.

Section ShifterFacts.

Import Shifter.

Lemma shifted_outcome (bboxes : list (Z * BBox)) (shifts : list (Z * Z))
    (imgSize lbl : Z) (b : BBox) (f : nat) (s : Z * Z) :
  In (lbl, b) bboxes -> nth_error shifts f = Some s ->
  exists outs,
    In (lbl, outs) (fst (shift_bounding_boxes bboxes shifts imgSize))
    /\ nth_error outs f = Some (shift_one imgSize b s).
Proof.
  intros Hin Hs. exists (map (shift_one imgSize b) shifts). split.
  - unfold shift_bounding_boxes. cbn [fst].
    apply in_map_iff. exists (lbl, b). split; [reflexivity | exact Hin].
  - now apply map_nth_error.
Qed.

Lemma nth_error_combine_seq {A} (l : list A) (f : nat) (x : A) (start : nat) :
  nth_error l f = Some x ->
  In ((start + f)%nat, x) (combine (seq start (length l)) l).
Proof.
  revert f start. induction l as [|y l IH]; intros f start Hn.
  - destruct f; discriminate.
  - destruct f as [|f]; simpl in *.
    + injection Hn as ->. left. f_equal. lia.
    + right. replace (start + S f)%nat with (S start + f)%nat by lia. auto.
Qed.

Lemma out_of_frame_warned (bboxes : list (Z * BBox)) (shifts : list (Z * Z))
    (imgSize lbl : Z) (b : BBox) (f : nat) (s : Z * Z) :
  In (lbl, b) bboxes -> nth_error shifts f = Some s ->
  in_frame imgSize (translate b s) = false ->
  In (lbl, f) (snd (shift_bounding_boxes bboxes shifts imgSize)).
Proof.
  intros Hin Hs Hout. unfold shift_bounding_boxes. cbn [snd].
  apply in_flat_map. exists (lbl, b). split; [exact Hin|].
  unfold warnings_of_trap. cbn [fst snd].
  apply in_map_iff. exists (f, s). split; [reflexivity|].
  apply filter_In. split.
  - exact (nth_error_combine_seq shifts f s 0 Hs).
  - cbn [snd]. now rewrite Hout.
Qed.

End ShifterFacts.

Section Float64Facts.

Import Float64.

Lemma fold_left_add_map {A} (g : A -> float64) (l : list A) (a : float64) :
  fold_left PrimFloat.add (map g l) a
  = fold_left (fun acc p => PrimFloat.add acc (g p)) l a.
Proof.
  revert a. induction l as [|x l IH]; intros a; [reflexivity|].
  cbn [map fold_left]. apply IH.
Qed.

Lemma float64_raw_shift (first fc : list Float64.Centroid) :
  length fc = length first ->
  Float64.raw_shift first fc
  = (mean_displacement fst first fc, mean_displacement snd first fc).
Proof.
  intros Hlen.
  unfold Float64.raw_shift, Float64.mean_axis1, Float64.displacements,
    np_mean, np_sum, mean_displacement.
  rewrite !map_map, !fold_left_add_map, !length_map, length_combine, Hlen,
    Nat.min_id.
  reflexivity.
Qed.

Lemma float64_asarray_regular (first : list Float64.Centroid)
    (rest : list (list Float64.Centroid)) :
  first <> [] ->
  Forall (fun fc => length fc = length first) rest ->
  Float64.np_asarray (first :: rest) = Float64.Array3 (first :: rest).
Proof.
  intros Hne Hall. unfold Float64.np_asarray.
  assert ((0 <? length first)%nat = true) as ->.
  { destruct first; [congruence|]. reflexivity. }
  assert (forallb (Float64.same_length first) rest = true) as ->;
    [|reflexivity].
  apply forallb_forall. rewrite Forall_forall in Hall.
  intros fc Hin. unfold Float64.same_length. apply Nat.eqb_eq. auto.
Qed.

Lemma float64_shifts_regular (first : list Float64.Centroid)
    (rest : list (list Float64.Centroid)) :
  first <> [] ->
  Forall (fun fc => length fc = length first) rest ->
  Float64.integer_shifts (first :: rest)
  = Ok (map (fun fc => Float64.integer_shift (Float64.raw_shift first fc))
            (first :: rest)).
Proof.
  intros Hne Hall. unfold Float64.integer_shifts.
  now rewrite (float64_asarray_regular first rest Hne Hall).
Qed.

Lemma round_int16_nearest (x : float64) (m : Q) :
  to_Q x = Some m -> (Qabs m <= 32767)%Q ->
  (Qabs (inject_Z (round_int16 x) - m) <= 1 # 2)%Q
  /\ ((Qabs (inject_Z (round_int16 x) - m) == 1 # 2)%Q ->
      Z.even (round_int16 x) = true).
Proof.
  intros Hx Hm. unfold round_int16. rewrite Hx.
  apply Qabs_Qle_condition in Hm. destruct Hm as [Hlo Hhi].
  pose proof (round_bounded m 32767 Hlo Hhi) as Hr.
  rewrite astype_int16_small by lia.
  split; [apply round_nearest | apply round_ties_even].
Qed.

(** The shape test of [np_asarray], read back. *)
Lemma float64_asarray_Array3 (cs frames : list (list Float64.Centroid)) :
  Float64.np_asarray cs = Float64.Array3 frames ->
  frames = cs
  /\ exists first rest,
       cs = first :: rest /\ first <> []
       /\ Forall (fun fc => length fc = length first) rest.
Proof.
  unfold Float64.np_asarray. destruct cs as [|first rest]; [discriminate|].
  destruct (0 <? length first)%nat eqn:Hpos; simpl; [|discriminate].
  destruct (forallb (Float64.same_length first) rest) eqn:Hall;
    [|discriminate].
  intros [= <-]. split; [reflexivity|]. exists first, rest.
  split; [reflexivity|]. split.
  - destruct first; [discriminate Hpos | discriminate].
  - apply Forall_forall. intros fc Hin.
    rewrite forallb_forall in Hall. specialize (Hall _ Hin).
    now apply Nat.eqb_eq in Hall.
Qed.

Lemma float64_shifts_irregular (first : list Float64.Centroid)
    (rest : list (list Float64.Centroid)) :
  (exists fc, In fc rest /\ length fc <> length first) ->
  Float64.integer_shifts (first :: rest) = Raise IndexError.
Proof.
  intros [fc [Hin Hlen]]. unfold Float64.integer_shifts.
  destruct (Float64.np_asarray (first :: rest)) as [frames|] eqn:E;
    [|reflexivity].
  exfalso. apply float64_asarray_Array3 in E.
  destruct E as [_ (first' & rest' & [= <- <-] & _ & Hall)].
  rewrite Forall_forall in Hall. exact (Hlen (Hall _ Hin)).
Qed.

Lemma float64_shifts_Ok (cs : list (list Float64.Centroid))
    (shifts : list (Z * Z)) :
  Float64.integer_shifts cs = Ok shifts ->
  exists first rest,
    cs = first :: rest /\ first <> []
    /\ Forall (fun fc => length fc = length first) rest.
Proof.
  unfold Float64.integer_shifts.
  destruct (Float64.np_asarray cs) as [frames|] eqn:E; [|discriminate].
  intros _. apply float64_asarray_Array3 in E. tauto.
Qed.

End Float64Facts.

(** The shape of the outcome does not depend on the arithmetic: on the
    same batch, read in float64 or in rationals, the estimation raises
    the same exception or yields as many shifts. *)
Lemma float64_shifts_shape (g : Float64.Centroid -> Centroid)
    (cs : list (list Float64.Centroid)) :
  match Float64.integer_shifts cs, integer_shifts (map (map g) cs) with
  | Ok a, Ok b => length a = length b
  | Raise e, Raise e' => e = e'
  | _, _ => False
  end.
Proof.
  destruct cs as [|c0 rest]; [reflexivity|].
  unfold Float64.integer_shifts, integer_shifts, Float64.np_asarray,
    np_asarray.
  cbn [map]. rewrite length_map.
  assert (forallb (same_length (map g c0)) (map (map g) rest)
          = forallb (Float64.same_length c0) rest) as ->.
  { induction rest as [|c rest IH]; [reflexivity|].
    cbn [map forallb]. rewrite IH.
    unfold same_length, Float64.same_length. now rewrite !length_map. }
  destruct ((0 <? length c0)%nat && forallb (Float64.same_length c0) rest);
    cbn [Float64.index_first index_first]; [|reflexivity].
  change (map g c0 :: map (map g) rest) with (map (map g) (c0 :: rest)).
  now rewrite !length_map.
Qed.

(** C3: every frame gets exactly one integer shift vector.  When every
    frame of the batch holds as many accepted centroids as frame 0 (at
    least one), [integer_shifts] holds one pair per frame.  The pair of
    frame [f] is, for the rows and for the columns, the float64 mean of
    the displacements between the centroids of frame [f] and those of
    frame 0 at the same array position, rounded and cast to int16; when
    that mean is finite and within int16, the pair is the nearest
    integer to it (at most half a pixel away; the even one when two are
    as near).  And that one pair translates every trap bounding box in
    frame [f] (the translation itself is [mm3.shift_bounding_boxes],
    modelled from the design document). *)
Theorem one_shift_per_frame
    (first : list Float64.Centroid) (rest : list (list Float64.Centroid))
    (bboxes : list (Z * Shifter.BBox)) (imgSize : Z) :
  first <> [] ->
  Forall (fun fc => length fc = length first) rest ->
  exists shifts,
    Float64.integer_shifts (first :: rest) = Ok shifts
    /\ length shifts = length (first :: rest)
    /\ forall f fc,
         nth_error (first :: rest) f = Some fc ->
         exists s,
           nth_error shifts f = Some s
           /\ fst s = Float64.round_int16
                        (Float64.mean_displacement fst first fc)
           /\ snd s = Float64.round_int16
                        (Float64.mean_displacement snd first fc)
           /\ (forall m,
                  Float64.to_Q (Float64.mean_displacement fst first fc)
                  = Some m ->
                  (Qabs m <= 32767)%Q ->
                  (Qabs (inject_Z (fst s) - m) <= 1 # 2)%Q
                  /\ ((Qabs (inject_Z (fst s) - m) == 1 # 2)%Q ->
                      Z.even (fst s) = true))
           /\ (forall m,
                  Float64.to_Q (Float64.mean_displacement snd first fc)
                  = Some m ->
                  (Qabs m <= 32767)%Q ->
                  (Qabs (inject_Z (snd s) - m) <= 1 # 2)%Q
                  /\ ((Qabs (inject_Z (snd s) - m) == 1 # 2)%Q ->
                      Z.even (snd s) = true))
           /\ forall lbl b,
                In (lbl, b) bboxes ->
                exists outs,
                  In (lbl, outs)
                     (fst (Shifter.shift_bounding_boxes bboxes shifts imgSize))
                  /\ nth_error outs f = Some (Shifter.shift_one imgSize b s).
Proof.
  intros Hne Hlen.
  exists (map (fun fc => Float64.integer_shift (Float64.raw_shift first fc))
              (first :: rest)).
  split; [now apply float64_shifts_regular|].
  split; [apply length_map|].
  intros f fc Hf.
  exists (Float64.integer_shift (Float64.raw_shift first fc)).
  assert (nth_error
            (map (fun fc => Float64.integer_shift (Float64.raw_shift first fc))
                 (first :: rest)) f
          = Some (Float64.integer_shift (Float64.raw_shift first fc))) as Hs
    by exact (map_nth_error
                (fun fc => Float64.integer_shift (Float64.raw_shift first fc))
                f _ Hf).
  assert (In fc (first :: rest)) as Hin by (eapply nth_error_In; eauto).
  assert (length fc = length first) as Hl.
  { destruct Hin as [<-|Hin]; [reflexivity|].
    rewrite Forall_forall in Hlen. auto. }
  rewrite (float64_raw_shift first fc Hl) in *.
  unfold Float64.integer_shift in *. cbn [fst snd] in *.
  split; [exact Hs|]. split; [reflexivity|]. split; [reflexivity|].
  split; [intros m Hm Hb; now apply round_int16_nearest|].
  split; [intros m Hm Hb; now apply round_int16_nearest|].
  intros lbl b Hb. eapply shifted_outcome; eauto.
Qed.

(** The theorem at a batch of two frames of two centroids each.  The
    row displacements are the float64 numbers [0.5000000000000001] and
    [0.5]; their float64 mean is [0.5], a tie, and the row shift is 0.
    The mean column displacement is [2.5] and the column shift 2. *)
Lemma one_shift_per_frame_witness :
  exists shifts,
    Float64.integer_shifts
      [Sample.float_centroids_first; Sample.float_centroids_later]
    = Ok shifts
    /\ length shifts = 2%nat
    /\ nth_error shifts 1 = Some (0, 2)
    /\ exists m,
         Float64.to_Q
           (Float64.mean_displacement fst Sample.float_centroids_first
                                      Sample.float_centroids_later)
         = Some m
         /\ (m == 1 # 2)%Q
         /\ (Qabs (inject_Z 0 - m) <= 1 # 2)%Q.
Proof.
  destruct (one_shift_per_frame
              Sample.float_centroids_first [Sample.float_centroids_later]
              [(1, Shifter.mkBBox 900 990 1100 1010)] 2048)
    as [shifts (H1 & H2 & H3)].
  - discriminate.
  - repeat constructor.
  - exists shifts. split; [exact H1|]. split; [exact H2|].
    destruct (H3 1%nat Sample.float_centroids_later eq_refl)
      as (s & Hs & Hr & Hc & Hn & _).
    destruct s as [r c]. cbn [fst snd] in Hr, Hc, Hn.
    assert (r = 0) as -> by (rewrite Hr; vm_compute; reflexivity).
    assert (c = 2) as -> by (rewrite Hc; vm_compute; reflexivity).
    split; [exact Hs|].
    eexists. split; [vm_compute; reflexivity|].
    split; [reflexivity|].
    apply Hn; [vm_compute; reflexivity | vm_compute; discriminate].
Defined.

(** C7: a shifted box that leaves the frame is flagged, never wrapped
    or clipped.  For every trap and every frame the outcome is either
    the box translated by exactly the frame's shift - when all of it
    lies in [0, imgSize) in both dimensions - or the explicit
    out-of-bounds mark together with a warning naming trap and frame.
    The box (0,0,h,w) shifted by (-1,0) is flagged whatever h, w and
    the frame size are. *)
Theorem out_of_frame_flagged :
  (forall bboxes shifts imgSize lbl b f s,
      In (lbl, b) bboxes -> nth_error shifts f = Some s ->
      exists outs,
        In (lbl, outs)
           (fst (Shifter.shift_bounding_boxes bboxes shifts imgSize))
        /\ (Shifter.in_frame imgSize (Shifter.translate b s) = false ->
            nth_error outs f = Some Shifter.OutOfBounds
            /\ In (lbl, f)
                  (snd (Shifter.shift_bounding_boxes bboxes shifts imgSize)))
        /\ (Shifter.in_frame imgSize (Shifter.translate b s) = true ->
            nth_error outs f = Some (Shifter.InFrame (Shifter.translate b s))))
  /\ (forall imgSize b s,
         Shifter.in_frame imgSize (Shifter.translate b s) = true <->
         0 <= Shifter.r0 b + fst s /\ Shifter.r1 b + fst s <= imgSize
         /\ 0 <= Shifter.c0 b + snd s /\ Shifter.c1 b + snd s <= imgSize)
  /\ (forall h w imgSize,
         Shifter.shift_one imgSize (Shifter.mkBBox 0 0 h w) (-1, 0)
         = Shifter.OutOfBounds).
Proof.
  split; [|split].
  - intros bboxes shifts imgSize lbl b f s Hin Hs.
    destruct (shifted_outcome bboxes shifts imgSize lbl b f s Hin Hs)
      as [outs [Ho Hn]].
    exists outs. split; [exact Ho|]. unfold Shifter.shift_one in Hn. split.
    + intros Hout. rewrite Hout in Hn. split; [exact Hn|].
      now apply out_of_frame_warned with (b := b) (s := s).
    + intros Hok. now rewrite Hok in Hn.
  - intros imgSize b s. unfold Shifter.in_frame, Shifter.translate.
    cbn [Shifter.r0 Shifter.r1 Shifter.c0 Shifter.c1].
    rewrite !andb_true_iff, !Z.leb_le. tauto.
  - intros h w imgSize. reflexivity.
Qed.

(** C2: the reference-crop selection, run on three dilated trap regions
    of a 2048 x 2048 frame, centred in label (raster) order on rows 100,
    200 and 1000 and on column 1000.  Only the third admits a (512,512)
    crop.  The tests are reduced along the regions
    ([np.all(..., axis=1)]) and not along the two tests: the top test
    fails for some region and the bottom test holds for all, so the
    reduction is [[False; True]] and the selected index is 1 - the
    region on row 200, whose crop would start 56 rows above the frame.
    Index 1 stands for "every region passes the bottom test", not for
    "region 1 passes both tests"; columns are not tested at all. *)
Theorem reference_crop_selects_uncroppable_region :
  let centroids :=
    [(100 # 1, 1000 # 1); (200 # 1, 1000 # 1); (1000 # 1, 1000 # 1)]%Q in
  RefCrop.top_test (RefCrop.rounded centroids) = [false; false; true]
  /\ RefCrop.bottom_test (RefCrop.rounded centroids) 2048 = [true; true; true]
  /\ RefCrop.good_trap_region_index (RefCrop.rounded centroids) 2048
     = Ok 1%nat
  /\ RefCrop.anchor_centroid centroids 2048 = Ok (200, 1000)
  /\ RefCrop.crop_in_bounds 2048 2048 (200, 1000) = false
  /\ RefCrop.crop_in_bounds 2048 2048 (1000, 1000) = true
  /\ RefCrop.first_croppable 2048 2048 (RefCrop.rounded centroids)
     = Some 2%nat.
Proof.
  vm_compute. repeat split.
Qed.

Section FrameOrder.

Import Script.

(** The order [sort_by_t] sorts into. *)
Let by_t (a b : string * Z) : Prop := snd a <= snd b.

Lemma insert_sorted_by_t (x : string * Z) (l : list (string * Z)) :
  Sorted by_t l ->
  Sorted by_t (insert_sorted (fun a b => snd a <=? snd b) x l)
  /\ Permutation (x :: l) (insert_sorted (fun a b => snd a <=? snd b) x l).
Proof.
  induction 1 as [|y l Hs IH Hhd]; simpl.
  - split; [repeat constructor | apply Permutation_refl].
  - destruct IH as [IHs IHp].
    destruct (Z.leb_spec (snd y) (snd x)) as [Hle|Hgt].
    + split.
      * constructor; [exact IHs|].
        destruct l as [|z l']; simpl.
        -- constructor. exact Hle.
        -- inversion Hhd; subst.
           destruct (snd z <=? snd x); constructor; assumption.
      * eapply Permutation_trans; [apply perm_swap|].
        now constructor.
    + split; [|apply Permutation_refl].
      constructor; [constructor; assumption|].
      constructor. unfold by_t. lia.
Qed.

Lemma sort_by_t_sorted (l : list (string * Z)) :
  Sorted by_t (sort_by_t l) /\ Permutation l (sort_by_t l).
Proof.
  unfold sort_by_t, py_sorted.
  assert (forall acc, Sorted by_t acc ->
            Sorted by_t
              (fold_left (fun acc x =>
                            insert_sorted (fun a b => snd a <=? snd b) x acc)
                         l acc)
            /\ Permutation (l ++ acc)
                 (fold_left (fun acc x =>
                               insert_sorted (fun a b => snd a <=? snd b) x acc)
                            l acc)) as H.
  { induction l as [|x l IH]; intros acc Hacc; simpl.
    - split; [exact Hacc | apply Permutation_refl].
    - destruct (insert_sorted_by_t x acc Hacc) as [Hs Hp].
      destruct (IH _ Hs) as [IHs IHp]. split; [exact IHs|].
      eapply Permutation_trans; [|exact IHp].
      eapply Permutation_trans; [apply Permutation_middle|].
      now apply Permutation_app_head. }
  destruct (H [] (Sorted_nil _)) as [Hs Hp].
  rewrite app_nil_r in Hp. auto.
Qed.

Lemma filter_items_In {K V} (keep : V -> result bool)
    (items kept : list (K * V)) :
  filter_items keep items = Ok kept ->
  forall kv, In kv kept <-> In kv items /\ keep (snd kv) = Ok true.
Proof.
  revert kept. induction items as [|[k v] items IH]; simpl; intros kept.
  - intros [= <-] kv. simpl. tauto.
  - destruct (keep v) as [b|e] eqn:Ek; [|discriminate].
    destruct (filter_items keep items) as [rest|e]; [|discriminate].
    intros [= <-] kv. specialize (IH rest eq_refl kv).
    destruct b; simpl; rewrite IH; split.
    + intros [<-|[H1 H2]]; simpl; auto.
    + intros [[<-|H1] H2]; auto.
    + intros [H1 H2]; auto.
    + intros [[<-|H1] H2]; auto. simpl in H2. congruence.
Qed.

(** The peak path selects the frames of a field of view and orders them
    by time point. *)
Lemma send_to_write_sorted (items : list (string * ImgEntry)) (fov_id : Z)
    (l : list (string * Z)) :
  send_to_write items fov_id = Ok l ->
  Sorted by_t l
  /\ forall fn time,
       In (fn, time) l <->
       exists m, In (fn, Meta m) items /\ fov m = fov_id /\ t m = time.
Proof.
  unfold send_to_write.
  destruct (filter_items (in_fov fov_id) items) as [kept|e] eqn:E;
    [|discriminate].
  intros [= <-]. destruct (sort_by_t_sorted (map name_and_t kept)) as [Hs Hp].
  split; [exact Hs|]. intros fn time.
  pose proof (filter_items_In _ _ _ E) as Hk.
  split.
  - intros Hin. apply (Permutation_in _ (Permutation_sym Hp)) in Hin.
    apply in_map_iff in Hin. destruct Hin as [[k v] [Heq Hin]].
    apply Hk in Hin. destruct Hin as [Hin Hf]. simpl in Hf.
    destruct v as [o|m|]; try discriminate.
    unfold name_and_t in Heq. simpl in Heq. injection Heq as -> <-.
    exists m. simpl in Hf. injection Hf as Hf. apply Z.eqb_eq in Hf. auto.
  - intros [m (Hin & Hf & Ht)]. apply (Permutation_in _ Hp).
    apply in_map_iff. exists (fn, Meta m). split.
    + unfold name_and_t. simpl. now rewrite Ht.
    + apply Hk. split; [exact Hin|]. simpl. f_equal. now apply Z.eqb_eq.
Qed.

End FrameOrder.

(** C8: the segmentation path orders the frames by file name.  With a
    three-digit time counter running past 999, the frame of time point
    1000 comes before the frame of time point 999. *)
Theorem file_names_sorted_by_name_not_by_time :
  let analyzed_imgs :=
    [("e_t999xy01.tif", Script.Meta (Script.mkMetadata 1 999 [] None));
     ("e_t1000xy01.tif", Script.Meta (Script.mkMetadata 1 1000 [] None))] in
  Script.sorted_file_names analyzed_imgs
  = ["e_t1000xy01.tif"; "e_t999xy01.tif"]
  /\ map (fun fn => match Script.dict_get analyzed_imgs fn with
                    | Some (Script.Meta m) => Script.t m
                    | _ => 0
                    end)
         (Script.sorted_file_names analyzed_imgs)
     = [1000; 999].
Proof.
  vm_compute. split; reflexivity.
Qed.

(** C9: with the segmentation strategy and HDF5 output the slicing
    stage persists nothing, whatever the collaborators do: it logs its
    two messages and returns. *)
Theorem unet_hdf5_persists_nothing :
  forall w analyzed_imgs channel_masks trap_images_dict,
    Script.slicing_stage (Sample.config "Unet" "HDF5" true) w
                         analyzed_imgs channel_masks trap_images_dict
    = ([Script.Information "Saving channel slices.";
        Script.Information "Channel slices saved."], Ok tt).
Proof.
  intros. reflexivity.
Qed.

(** ** The script *)

Section MonadFacts.

Import Script.

Lemma bind_ret_l {A B} (a : A) (k : A -> M B) : bind (ret a) k = k a.
Proof. unfold bind, ret. now destruct (k a). Qed.

Lemma bind_Ok {A B} (m : M A) (k : A -> M B) (b : B) :
  outcome (bind m k) = Ok b ->
  exists a, outcome m = Ok a /\ outcome (k a) = Ok b.
Proof.
  destruct m as [tr [a|e]]; simpl; [|discriminate].
  destruct (k a) as [tr' r] eqn:E. simpl. intros ->.
  exists a. rewrite E. auto.
Qed.

Lemma bind_outcome_Ok {A B} (m : M A) (k : A -> M B) (a : A) :
  outcome m = Ok a -> outcome (bind m k) = outcome (k a).
Proof.
  destruct m as [tr [a'|e]]; simpl; [|discriminate].
  intros [= ->]. now destruct (k a).
Qed.

Lemma bind_outcome_Raise {A B} (m : M A) (k : A -> M B) (e : exn) :
  outcome m = Raise e -> outcome (bind m k) = Raise e.
Proof.
  destruct m as [tr [a'|e']]; simpl; [discriminate|]. intros [= ->].
  reflexivity.
Qed.

Lemma for_each_cons {X S} (x : X) (l : list X) (body : S -> X -> M S)
    (s : S) :
  for_each (x :: l) body s = bind (body s x) (fun s' => for_each l body s').
Proof. reflexivity. Qed.

Lemma writes_bind {A B} (m : M A) (k : A -> M B) :
  writes m = [] -> (forall a, writes (k a) = []) -> writes (bind m k) = [].
Proof.
  unfold writes, trace. destruct m as [tr [a|e]]; simpl; intros Hm Hk.
  - specialize (Hk a). destruct (k a) as [tr' r]. simpl in *.
    now rewrite filter_app, Hm, Hk.
  - exact Hm.
Qed.

Lemma writes_for_each {X S} (l : list X) (body : S -> X -> M S) (s : S) :
  (forall s x, writes (body s x) = []) -> writes (for_each l body s) = [].
Proof.
  intros Hb. revert s. induction l as [|x l IH]; intros s; simpl.
  - reflexivity.
  - apply writes_bind; auto.
Qed.

Lemma writes_lift {A} (r : result A) : writes (lift r) = [].
Proof. reflexivity. Qed.

Lemma writes_ret {A} (a : A) : writes (ret a) = [].
Proof. reflexivity. Qed.

Lemma writes_raise {A} (e : exn) : writes (@raise A e) = [].
Proof. reflexivity. Qed.

Lemma writes_emit (e : Event) : is_write e = false -> writes (emit e) = [].
Proof. unfold writes, emit. simpl. now intros ->. Qed.

End MonadFacts.

Ltac head_of term :=
  match term with
  | ?f _ => head_of f
  | _ => term
  end.

(** Solves [writes m = []] for a script that emits no writer call. *)
Ltac no_writes :=
  repeat first
    [ apply writes_ret
    | apply writes_raise
    | apply writes_lift
    | apply writes_emit; reflexivity
    | apply writes_for_each; intros
    | apply writes_bind; [|intros]
    | match goal with
      | |- Script.writes (if ?b then _ else _) = [] => destruct b
      | |- Script.writes (match ?x with _ => _ end) = [] => destruct x
      | |- Script.writes ?m = [] => let h := head_of m in progress unfold h
      end ].

Section StageFacts.

Import Script.

(** No stage before slicing calls a writer. *)
Lemma writes_before_slicing cfg w : writes (before_slicing cfg w) = [].
Proof.
  unfold before_slicing. no_writes.
Qed.

End StageFacts.

Section UnboundName.

Import Script.

Lemma slicing_peaks cfg w imgs masks images :
  find_channels_method cfg = "peaks" -> do_slicing cfg = true ->
  slicing_stage cfg w imgs masks images
  = ([Information "Saving channel slices."], Raise (NameError "six")).
Proof.
  intros Hm Hs. unfold slicing_stage. rewrite Hs, Hm. reflexivity.
Qed.

Lemma masks_t_end cfg w imgs :
  do_channel_masks cfg = true -> truthy_t_end (t_end cfg) = true ->
  masks_stage cfg w imgs = ([], Raise (NameError "six")).
Proof.
  intros Hc Ht. unfold masks_stage. rewrite Hc. simpl.
  destruct (t_end cfg) as [v|]; [|discriminate].
  rewrite Ht. reflexivity.
Qed.

End UnboundName.

(** C10: [six] is not among the names the module imports, so evaluating
    [six.iteritems] raises [NameError].  With the peak strategy and
    slicing enabled the slicing stage raises it right after its first
    log line, whatever the state it is given; the whole run never calls
    a writer and always ends in an exception, which is this [NameError]
    whenever the earlier stages complete.  Recomputing the channel masks
    with a cutoff time point set reaches the same unbound name.  A
    sample run of two frames ends that way. *)
Theorem peaks_slicing_raises_NameError :
  existsb (String.eqb "six") Script.module_imports = false
  /\ (forall cfg w,
         Script.find_channels_method cfg = "peaks" ->
         Script.do_slicing cfg = true ->
         (forall imgs masks images,
             Script.slicing_stage cfg w imgs masks images
             = ([Script.Information "Saving channel slices."],
                Raise (NameError "six")))
         /\ Script.writes (Script.main cfg w) = []
         /\ (exists e, Script.outcome (Script.main cfg w) = Raise e)
         /\ (forall st,
                Script.outcome (Script.before_slicing cfg w) = Ok st ->
                Script.outcome (Script.main cfg w) = Raise (NameError "six")))
  /\ (forall cfg w imgs,
         Script.do_channel_masks cfg = true ->
         Script.truthy_t_end (Script.t_end cfg) = true ->
         Script.masks_stage cfg w imgs = ([], Raise (NameError "six")))
  /\ Script.outcome
       (Script.main (Sample.config "peaks" "TIFF" true)
                    (Sample.world Sample.two_paths Sample.sample_params
                                  Sample.aligned_steady))
     = Raise (NameError "six").
Proof.
  split; [reflexivity|]. split; [|split; [|reflexivity]].
  - intros cfg w Hm Hs.
    assert (forall imgs masks images,
               Script.slicing_stage cfg w imgs masks images
               = ([Script.Information "Saving channel slices."],
                  Raise (NameError "six"))) as Hslice
      by (intros; now apply slicing_peaks).
    split; [exact Hslice|]. unfold Script.main. split; [|split].
    + apply writes_bind; [apply writes_before_slicing|].
      intros [[imgs masks] images]. now rewrite Hslice.
    + destruct (Script.outcome (Script.before_slicing cfg w))
        as [[[imgs masks] images]|e] eqn:E.
      * exists (NameError "six").
        rewrite (bind_outcome_Ok _ _ _ E). now rewrite Hslice.
      * exists e. now apply bind_outcome_Raise.
    + intros [[imgs masks] images] E.
      rewrite (bind_outcome_Ok _ _ _ E). now rewrite Hslice.
  - intros cfg w imgs. apply masks_t_end.
Qed.

Section DictFacts.

Import Script.

Lemma dict_set_fresh {V} (d : Dict V) (k : string) (v : V) :
  ~ In k (keys d) -> dict_set d k v = d ++ [(k, v)].
Proof.
  induction d as [|[k' v'] d IH]; simpl; [reflexivity|].
  intros Hn. destruct (String.eqb_spec k' k) as [->|Hne].
  - exfalso. apply Hn. now left.
  - f_equal. apply IH. intros Hin. apply Hn. now right.
Qed.

Lemma dict_get_app_fresh {V} (pre post : Dict V) (k : string) (v : V) :
  ~ In k (keys pre) -> dict_get (pre ++ (k, v) :: post) k = Some v.
Proof.
  induction pre as [|[k' v'] pre IH]; simpl; intros Hn.
  - now rewrite String.eqb_refl.
  - destruct (String.eqb_spec k' k) as [->|Hne].
    + exfalso. apply Hn. now left.
    + apply IH. intros Hin. apply Hn. now right.
Qed.

Lemma dict_set_app_fresh {V} (pre post : Dict V) (k : string) (v v' : V) :
  ~ In k (keys pre) ->
  dict_set (pre ++ (k, v) :: post) k v' = pre ++ (k, v') :: post.
Proof.
  induction pre as [|[k0 v0] pre IH]; simpl; intros Hn.
  - now rewrite String.eqb_refl.
  - destruct (String.eqb_spec k0 k) as [->|Hne].
    + exfalso. apply Hn. now left.
    + f_equal. apply IH. intros Hin. apply Hn. now right.
Qed.

Lemma dict_get_map {V} (g : string -> V) (names : list string) (k : string) :
  In k names -> dict_get (map (fun fn => (fn, g fn)) names) k = Some (g k).
Proof.
  induction names as [|n names IH]; simpl; [contradiction|].
  intros Hin. destruct (String.eqb_spec n k) as [->|Hne]; [reflexivity|].
  destruct Hin as [->|Hin]; [congruence | auto].
Qed.

End DictFacts.

Section PooledExtraction.

Import Script.

Variable w : World.

Lemma submit_all (files : list string) (acc : Dict ImgEntry) :
  NoDup files -> (forall fn, In fn files -> ~ In fn (keys acc)) ->
  for_each files (submit w) acc
  = ([], Ok (acc ++ map (fun fn => (fn, Pending (get_tif_params w fn))) files)).
Proof.
  intros Hnd. revert acc. induction Hnd as [|fn files Hfn Hnd IH];
    intros acc Hfresh.
  - simpl. now rewrite app_nil_r.
  - rewrite for_each_cons. cbn [map]. unfold submit at 1.
    rewrite bind_ret_l.
    rewrite dict_set_fresh by (apply Hfresh; now left).
    rewrite IH.
    + now rewrite <- app_assoc.
    + intros fn' Hin. unfold keys. rewrite map_app, in_app_iff. simpl.
      intros [Hk|[->|[]]].
      * apply (Hfresh fn'); [now right | exact Hk].
      * contradiction.
Qed.

Lemma collect_all (g : string -> option Metadata) (names : list string)
    (pre : Dict ImgEntry) :
  NoDup names -> (forall fn, In fn names -> ~ In fn (keys pre)) ->
  for_each names collect (pre ++ map (fun fn => (fn, Pending (g fn))) names)
  = ([], Ok (pre ++ map (fun fn => (fn, entry_of (g fn))) names)).
Proof.
  intros Hnd. revert pre. induction Hnd as [|fn names Hfn Hnd IH];
    intros pre Hfresh.
  - reflexivity.
  - assert (~ In fn (keys pre)) as Hpre by (apply Hfresh; now left).
    rewrite for_each_cons. cbn [map]. unfold collect at 1.
    rewrite dict_get_app_fresh by exact Hpre.
    assert (forall v, dict_set
                        (pre ++ (fn, Pending (g fn))
                             :: map (fun fn => (fn, Pending (g fn))) names)
                        fn v
                      = (pre ++ [(fn, v)])
                          ++ map (fun fn => (fn, Pending (g fn))) names) as Hset.
    { intros v. rewrite dict_set_app_fresh by exact Hpre.
      now rewrite <- app_assoc. }
    assert (forall fn', In fn' names ->
                        ~ In fn' (keys (pre ++ [(fn, entry_of (g fn))]))) as Hk.
    { intros fn' Hin. unfold keys. rewrite map_app, in_app_iff. simpl.
      intros [Hk|[->|[]]].
      - apply (Hfresh fn'); [now right | exact Hk].
      - contradiction. }
    destruct (g fn) as [m|] eqn:Eg; rewrite bind_ret_l, Hset.
    + specialize (IH (pre ++ [(fn, Meta m)]) Hk). rewrite IH.
      now rewrite <- app_assoc.
    + specialize (IH (pre ++ [(fn, Failed)]) Hk). rewrite IH.
      now rewrite <- app_assoc.
Qed.

(** The pooled extraction over distinct files never raises: every file
    gets a record, the metadata of its worker or the failure sentinel. *)
Lemma peaks_metadata_value (cfg : Config) (files : list string) :
  1 <= analyzers cfg -> NoDup files ->
  peaks_metadata cfg w files
  = ([Information "Waiting for image analysis pool to be finished.";
      Information "Image analyses pool finished, getting results."],
     Ok (map (fun fn => (fn, entry_of (get_tif_params w fn))) files)).
Proof.
  intros Hn Hnd. unfold peaks_metadata, start_pool.
  destruct (Z.ltb_spec (analyzers cfg) 1) as [Hlt|_]; [lia|].
  rewrite bind_ret_l.
  rewrite (submit_all files [] Hnd) by (intros ? _ []).
  simpl app.
  assert (keys (map (fun fn => (fn, Pending (get_tif_params w fn))) files)
          = files) as Hkeys.
  { unfold keys. rewrite map_map. simpl. apply map_id. }
  unfold bind at 1. cbv iota beta.
  pose proof (collect_all (get_tif_params w) files [] Hnd) as Hc.
  simpl app in Hc.
  unfold information, emit, bind. rewrite Hkeys, Hc by (intros ? _ []).
  reflexivity.
Qed.

Lemma no_failure_elsewhere (files : list string) :
  (forall fn, In fn files -> get_tif_params w fn <> None) ->
  failed_extractions
    (map (fun fn => (fn, entry_of (get_tif_params w fn))) files) = 0%nat.
Proof.
  unfold failed_extractions. induction files as [|fn files IH]; intros Hok.
  - reflexivity.
  - simpl. destruct (get_tif_params w fn) eqn:E.
    + simpl. apply IH. intros fn' Hin. apply Hok. now right.
    + exfalso. apply (Hok fn); [now left | exact E].
Qed.

Lemma one_failure_counted (files : list string) (bad : string) :
  NoDup files -> In bad files -> get_tif_params w bad = None ->
  (forall fn, In fn files -> fn <> bad -> get_tif_params w fn <> None) ->
  failed_extractions
    (map (fun fn => (fn, entry_of (get_tif_params w fn))) files) = 1%nat.
Proof.
  intros Hnd. induction Hnd as [|fn files Hfn Hnd IH]; intros Hin Hbad Hok.
  - contradiction.
  - destruct (String.eqb_spec fn bad) as [->|Hne].
    + unfold failed_extractions. simpl. rewrite Hbad. simpl. f_equal.
      apply no_failure_elsewhere. intros fn' Hin'. apply Hok; [now right|].
      intros ->. contradiction.
    + destruct Hin as [->|Hin]; [congruence|].
      unfold failed_extractions. simpl.
      destruct (get_tif_params w fn) eqn:E.
      * simpl. apply IH; auto. intros fn' Hin'. apply Hok. now right.
      * exfalso. apply (Hok fn); [now left | exact Hne | exact E].
Qed.

Lemma valid_plus_failed (files : list string) :
  (valid_records (map (fun fn => (fn, entry_of (get_tif_params w fn))) files)
   + failed_extractions
       (map (fun fn => (fn, entry_of (get_tif_params w fn))) files)
   = length files)%nat.
Proof.
  unfold valid_records, failed_extractions.
  induction files as [|fn files IH]; [reflexivity|].
  simpl. destruct (get_tif_params w fn); simpl; lia.
Qed.

End PooledExtraction.

(** C5, as the code has it: with the peak strategy, the failure of one
    worker does not abort the pooled extraction.  Over distinct files
    of which exactly one fails, the extraction completes with one record
    per file: the failure sentinel for the failed file, the worker's
    metadata for each of the others, hence one failed and K-1 valid
    records.  The two lines it logs do not mention failures. *)
Theorem single_failure_does_not_abort
    (cfg : Script.Config) (w : Script.World) (files : list string)
    (bad : string) :
  1 <= Script.analyzers cfg -> NoDup files -> In bad files ->
  Script.get_tif_params w bad = None ->
  (forall fn, In fn files -> fn <> bad -> Script.get_tif_params w fn <> None) ->
  exists imgs,
    Script.outcome (Script.peaks_metadata cfg w files) = Ok imgs
    /\ Script.keys imgs = files
    /\ Script.dict_get imgs bad = Some Script.Failed
    /\ (forall fn, In fn files -> fn <> bad ->
                   exists m, Script.get_tif_params w fn = Some m
                             /\ Script.dict_get imgs fn = Some (Script.Meta m))
    /\ Script.failed_extractions imgs = 1%nat
    /\ Script.valid_records imgs = (length files - 1)%nat
    /\ Script.log (Script.peaks_metadata cfg w files)
       = [Script.Information "Waiting for image analysis pool to be finished.";
          Script.Information "Image analyses pool finished, getting results."].
Proof.
  intros Hn Hnd Hin Hbad Hok.
  exists (map (fun fn => (fn, Script.entry_of (Script.get_tif_params w fn)))
              files).
  rewrite (peaks_metadata_value w cfg files Hn Hnd).
  split; [reflexivity|]. split.
  { unfold Script.keys. rewrite map_map. simpl. apply map_id. }
  split.
  { rewrite (dict_get_map (fun fn => Script.entry_of (Script.get_tif_params w fn)))
      by exact Hin.
    now rewrite Hbad. }
  split.
  { intros fn Hfn Hne.
    destruct (Script.get_tif_params w fn) as [m|] eqn:E.
    - exists m. split; [reflexivity|].
      rewrite (dict_get_map
                 (fun fn => Script.entry_of (Script.get_tif_params w fn)))
        by exact Hfn.
      now rewrite E.
    - exfalso. exact (Hok fn Hfn Hne E). }
  assert (Script.failed_extractions
            (map (fun fn => (fn, Script.entry_of (Script.get_tif_params w fn)))
                 files) = 1%nat) as Hone
    by (apply one_failure_counted with (bad := bad); assumption).
  split; [exact Hone|]. split; [|reflexivity].
  pose proof (valid_plus_failed w files) as Hsum. lia.
Qed.

(** The theorem on two files, the second of which fails. *)
Lemma single_failure_does_not_abort_witness :
  exists imgs,
    Script.outcome
      (Script.peaks_metadata
         (Sample.config "peaks" "TIFF" false)
         (Sample.world Sample.two_paths Sample.worker_one_fails
                       Sample.aligned_steady)
         ["e_t0001xy01.tif"; "e_t0002xy01.tif"]) = Ok imgs
    /\ Script.failed_extractions imgs = 1%nat
    /\ Script.valid_records imgs = 1%nat.
Proof.
  destruct (single_failure_does_not_abort
              (Sample.config "peaks" "TIFF" false)
              (Sample.world Sample.two_paths Sample.worker_one_fails
                            Sample.aligned_steady)
              ["e_t0001xy01.tif"; "e_t0002xy01.tif"] "e_t0002xy01.tif")
    as (imgs & H1 & _ & _ & _ & H5 & H6 & _).
  - vm_compute. discriminate.
  - repeat constructor; simpl; intuition discriminate.
  - simpl. auto.
  - reflexivity.
  - intros fn [<-|[<-|[]]] Hne; [vm_compute; discriminate | congruence].
  - exists imgs. auto.
Defined.

(** C5, as stated, fails on two runs over the same two files, one in
    which every worker succeeds and one in which the second worker
    fails: the runs log exactly the same lines, so no count of failed
    extractions is emitted; and the failed record is not skipped by the
    frame selection of the slicing stage, which raises on it. *)
Lemma failure_count_not_logged :
  let cfg := Sample.config "peaks" "TIFF" false in
  let clean := Script.main cfg (Sample.world Sample.two_paths
                                  Sample.sample_params Sample.aligned_steady) in
  let failing := Script.main cfg (Sample.world Sample.two_paths
                                    Sample.worker_one_fails
                                    Sample.aligned_steady) in
  Script.log clean = Script.log failing
  /\ (exists d0 d1,
         In (Script.SaveMetadata d0) (Script.trace clean)
         /\ In (Script.SaveMetadata d1) (Script.trace failing)
         /\ Script.failed_extractions d0 = 0%nat
         /\ Script.failed_extractions d1 = 1%nat
         /\ Script.send_to_write d1 1 = Raise TypeError).
Proof.
  cbv zeta. split; [reflexivity|].
  eexists. eexists. split; [|split].
  - vm_compute. do 7 right. left. reflexivity.
  - vm_compute. do 7 right. left. reflexivity.
  - vm_compute. repeat split.
Qed.

Section MissingInput.

Import Script.

Lemma find_files_completes cfg w :
  exists files,
    outcome (find_files cfg w) = Ok files
    /\ (files = [] ->
        In (Warning "No TIFF files found") (trace (find_files cfg w))).
Proof.
  unfold find_files.
  match goal with
  | |- context [bind (if ?c then _ else ret ?all) _] =>
      destruct c;
      [ rewrite bind_outcome_Ok with (a := filter_fovs (user_spec_fovs cfg) all)
          by reflexivity
      | rewrite bind_ret_l ]
  end.
  - match goal with
    | |- context [filter_fovs ?fs ?all] => set (found := filter_fovs fs all)
    end.
    exists found. destruct found as [|f found'] eqn:E.
    + split; [reflexivity|]. intros _. simpl. auto.
    + split; [reflexivity | discriminate].
  - match goal with
    | |- context [length ?l] => set (found := l)
    end.
    exists found. destruct found as [|f found'] eqn:E.
    + split; [reflexivity|]. intros _. simpl. auto.
    + split; [reflexivity | discriminate].
Qed.

Lemma unet_metadata_no_files cfg w :
  outcome (unet_metadata cfg w [])
  = match load_model w (model_file_path cfg) with
    | Ok _ => Raise IndexError
    | Raise e => Raise e
    end.
Proof.
  unfold unet_metadata. simpl.
  destruct (load_model w (model_file_path cfg)); reflexivity.
Qed.

End MissingInput.

(** * Further properties of the script *)

(** ** Finding the input frames *)

Section TextFacts.

Import Script.

Lemma prefix_app (s t : string) :
  String.prefix s t = true <-> exists q, t = (s ++ q)%string.
Proof.
  revert t. induction s as [|a s IH]; intros t.
  - split; [intros _; now exists t | intros _; now destruct t].
  - destruct t as [|b t]; simpl.
    + split; [discriminate | intros [q Hq]; discriminate].
    + destruct (ascii_dec a b) as [->|Hne].
      * rewrite IH. split; intros [q Hq]; exists q; congruence.
      * split; [discriminate | intros [q Hq]; congruence].
Qed.


Lemma append_assoc (a b c : string) :
  ((a ++ b) ++ c = a ++ (b ++ c))%string.
Proof. induction a; simpl; congruence. Qed.

Lemma append_empty_r (a : string) : (a ++ "")%string = a.
Proof. induction a; simpl; congruence. Qed.

Lemma contains_slash_cons (c : ascii) (s : string) :
  contains "/" (String c s) = false <->
  Ascii.eqb c "/" = false /\ contains "/" s = false.
Proof.
  cbn [contains]. rewrite orb_false_iff.
  assert (String.prefix "/" (String c s) = Ascii.eqb c "/") as ->.
  { destruct (Ascii.eqb_spec c "/") as [->|Hne].
    - apply prefix_app. now exists s.
    - destruct (String.prefix "/" (String c s)) eqn:E; [|reflexivity].
      apply prefix_app in E. destruct E as [q Hq]. simpl in Hq. congruence. }
  reflexivity.
Qed.

Lemma basename_acc_plain (acc name : string) :
  contains "/" name = false -> basename_acc acc name = (acc ++ name)%string.
Proof.
  revert acc. induction name as [|c name IH]; intros acc H.
  - cbn [basename_acc]. now rewrite append_empty_r.
  - apply contains_slash_cons in H. destruct H as [Hc Hn].
    cbn [basename_acc]. rewrite Hc, IH by exact Hn.
    now rewrite append_assoc.
Qed.

Lemma basename_acc_dir (acc dir name : string) :
  contains "/" name = false ->
  basename_acc acc (dir ++ String "/" name) = name.
Proof.
  revert acc. induction dir as [|c dir IH]; intros acc H.
  - cbn [append basename_acc]. rewrite Ascii.eqb_refl.
    now rewrite basename_acc_plain.
  - cbn [append basename_acc]. destruct (Ascii.eqb c "/"); now rewrite IH.
Qed.

Lemma contains_slash_snoc (acc : string) (c : ascii) :
  contains "/" acc = false -> Ascii.eqb c "/" = false ->
  contains "/" (acc ++ String c "") = false.
Proof.
  intros H Ec. induction acc as [|a acc IHa]; cbn [append].
  - apply contains_slash_cons. split; [exact Ec | reflexivity].
  - apply contains_slash_cons in H. destruct H as [Ha Hacc].
    apply contains_slash_cons. split; [exact Ha | now apply IHa].
Qed.

Lemma basename_acc_no_slash (acc path : string) :
  contains "/" acc = false -> contains "/" (basename_acc acc path) = false.
Proof.
  revert acc. induction path as [|c path IH]; intros acc H;
    cbn [basename_acc].
  - exact H.
  - destruct (Ascii.eqb c "/") eqn:Ec.
    + apply IH. reflexivity.
    + apply IH. now apply contains_slash_snoc.
Qed.

End TextFacts.

(** X1: stripping the directory of a globbed path.  The base name of a
    path never contains a slash, and a path made of any directory, a
    slash and a slash-free file name has that file name as base name. *)
Theorem basename_strips_directory :
  (forall path, Script.contains "/" (Script.basename path) = false)
  /\ (forall dir name,
         Script.contains "/" name = false ->
         Script.basename (dir ++ String "/" name) = name).
Proof.
  split.
  - intros path. now apply basename_acc_no_slash.
  - intros dir name H. now apply basename_acc_dir.
Qed.

Section SortFacts.

Import Script.

Context {A : Type} (le : A -> A -> bool).
Hypothesis le_total : forall a b, le a b = true \/ le b a = true.

Lemma insert_sorted_total (x : A) (l : list A) :
  Sorted (fun a b => le a b = true) l ->
  Sorted (fun a b => le a b = true) (insert_sorted le x l)
  /\ Permutation (x :: l) (insert_sorted le x l).
Proof.
  induction 1 as [|y l Hs IH Hhd]; cbn [insert_sorted].
  - split; [repeat constructor | apply Permutation_refl].
  - destruct IH as [IHs IHp]. destruct (le y x) eqn:Hyx.
    + split.
      * constructor; [exact IHs|].
        destruct l as [|z l']; cbn [insert_sorted].
        -- constructor. exact Hyx.
        -- inversion Hhd; subst. destruct (le z x); constructor; assumption.
      * eapply Permutation_trans; [apply perm_swap|]. now constructor.
    + split; [|apply Permutation_refl].
      constructor; [constructor; assumption|]. constructor.
      destruct (le_total x y) as [H|H]; [exact H | congruence].
Qed.

Lemma py_sorted_total (l : list A) :
  Sorted (fun a b => le a b = true) (py_sorted le l)
  /\ Permutation l (py_sorted le l).
Proof.
  unfold py_sorted.
  assert (forall acc,
             Sorted (fun a b => le a b = true) acc ->
             Sorted (fun a b => le a b = true)
                    (fold_left (fun acc x => insert_sorted le x acc) l acc)
             /\ Permutation (l ++ acc)
                  (fold_left (fun acc x => insert_sorted le x acc) l acc)) as H.
  { induction l as [|x l IH]; intros acc Hacc; cbn [fold_left app].
    - split; [exact Hacc | apply Permutation_refl].
    - destruct (insert_sorted_total x acc Hacc) as [Hs Hp].
      destruct (IH _ Hs) as [IHs IHp]. split; [exact IHs|].
      eapply Permutation_trans; [|exact IHp].
      eapply Permutation_trans; [apply Permutation_middle|].
      now apply Permutation_app_head. }
  destruct (H [] (Sorted_nil _)) as [Hs Hp].
  rewrite app_nil_r in Hp. auto.
Qed.

End SortFacts.

Lemma sort_names_facts (names : list string) :
  Sorted (fun a b => String.leb a b = true) (Script.sort_names names)
  /\ Permutation names (Script.sort_names names).
Proof.
  apply py_sorted_total. exact String.leb_total.
Qed.

(** X2: [sorted(found_files)] and [file_names.sort()] put the file
    names in ascending string order - each name is at most the next -
    and neither drop nor add a name. *)
Theorem sort_names_sorted_permutation (names : list string) :
  Sorted (fun a b => String.leb a b = true) (Script.sort_names names)
  /\ Permutation names (Script.sort_names names).
Proof.
  exact (sort_names_facts names).
Qed.

Section FindFacts.

Import Script.



End FindFacts.

Lemma find_files_outcome (cfg : Script.Config) (w : Script.World) :
  Script.outcome (Script.find_files cfg w) = Ok (found_files cfg w).
Proof.
  unfold Script.find_files, found_files. cbv zeta.
  destruct (0 <? length (Script.user_spec_fovs cfg))%nat.
  - erewrite bind_outcome_Ok; [|reflexivity].
    match goal with
    | |- context [if ?c then Script.information _ else _] => destruct c
    end; reflexivity.
  - rewrite bind_ret_l.
    match goal with
    | |- context [if ?c then Script.information _ else _] => destruct c
    end; reflexivity.
Qed.


(** ** Pooled extraction over any list of files *)

Section PooledAny.

Import Script.

Variable w : World.

Let handle (fn : string) : string * ImgEntry :=
  (fn, Pending (get_tif_params w fn)).

Lemma dict_set_same_table (names : list string) (fn : string) :
  In fn names ->
  dict_set (map handle names) fn (Pending (get_tif_params w fn))
  = map handle names.
Proof.
  induction names as [|n names IH]; [contradiction|].
  intros Hin. cbn [map dict_set]. unfold handle at 1. cbn [fst snd].
  destruct (String.eqb_spec n fn) as [->|Hne]; [reflexivity|].
  f_equal. apply IH. destruct Hin; [congruence | assumption].
Qed.

Lemma keys_handles (names : list string) : keys (map handle names) = names.
Proof. unfold keys. rewrite map_map. apply map_id. Qed.

(** The submission loop leaves one handle per distinct file name. *)
Lemma submit_any (files names : list string) :
  NoDup names ->
  exists names',
    for_each files (submit w) (map handle names) = ([], Ok (map handle names'))
    /\ NoDup names'
    /\ forall fn, In fn names' <-> In fn names \/ In fn files.
Proof.
  revert names. induction files as [|fn files IH]; intros names Hnd.
  - exists names. cbn [for_each]. split; [reflexivity|].
    split; [exact Hnd|]. intros fn. simpl. tauto.
  - rewrite for_each_cons. unfold submit at 1. rewrite bind_ret_l.
    destruct (in_dec string_dec fn names) as [Hin|Hnin].
    + rewrite dict_set_same_table by exact Hin.
      destruct (IH names Hnd) as (names' & He & Hnd' & Hiff).
      exists names'. split; [exact He|]. split; [exact Hnd'|].
      intros fn'. rewrite Hiff. simpl. intuition (subst; auto).
    + rewrite dict_set_fresh by (now rewrite keys_handles).
      change [(fn, Pending (get_tif_params w fn))] with (map handle [fn]).
      rewrite <- map_app.
      assert (NoDup (names ++ [fn])) as Hnd2.
      { apply NoDup_app; [exact Hnd | repeat constructor; auto |].
        intros x Hx [<-|[]]. contradiction. }
      destruct (IH _ Hnd2) as (names' & He & Hnd' & Hiff).
      exists names'. split; [exact He|]. split; [exact Hnd'|].
      intros fn'. rewrite Hiff, in_app_iff. simpl. tauto.
Qed.

End PooledAny.

(** X4: the pooled extraction of the peak strategy, for any list of
    files, repeated names included.  With fewer than one analyzer the
    pool cannot start and the extraction raises [ValueError] at once;
    otherwise it completes with exactly one record per distinct file
    name, each the metadata its worker returned or the failure
    sentinel - no handle is left in the table, and the collection loop
    never raises. *)
Theorem pooled_extraction_total
    (cfg : Script.Config) (w : Script.World) (files : list string) :
  (Script.analyzers cfg < 1 ->
   Script.peaks_metadata cfg w files = ([], Raise ValueError))
  /\ (1 <= Script.analyzers cfg ->
      exists imgs,
        Script.outcome (Script.peaks_metadata cfg w files) = Ok imgs
        /\ NoDup (Script.keys imgs)
        /\ (forall fn, In fn (Script.keys imgs) <-> In fn files)
        /\ (forall fn v,
               In (fn, v) imgs ->
               v = Script.entry_of (Script.get_tif_params w fn))).
Proof.
  split.
  - intros Hlt. unfold Script.peaks_metadata, Script.start_pool.
    destruct (Z.ltb_spec (Script.analyzers cfg) 1); [reflexivity | lia].
  - intros Hge. unfold Script.peaks_metadata, Script.start_pool.
    destruct (Z.ltb_spec (Script.analyzers cfg) 1) as [Hlt|_]; [lia|].
    rewrite bind_ret_l.
    destruct (submit_any w files [] (NoDup_nil _)) as (names & He & Hnd & Hiff).
    cbn [map] in He. rewrite He.
    exists (map (fun fn => (fn, Script.entry_of (Script.get_tif_params w fn)))
                names).
    pose proof (collect_all (Script.get_tif_params w) names [] Hnd) as Hc.
    cbn [app] in Hc.
    assert (Script.keys
              (map (fun fn => (fn, Script.Pending (Script.get_tif_params w fn)))
                   names) = names) as Hk.
    { unfold Script.keys. rewrite map_map. apply map_id. }
    split.
    + unfold Script.bind at 1. cbv iota beta.
      unfold Script.information, Script.emit, Script.bind.
      rewrite Hk, Hc by (intros ? _ []). reflexivity.
    + split; [|split].
      * unfold Script.keys. rewrite map_map. cbn [fst]. now rewrite map_id.
      * intros fn. unfold Script.keys. rewrite map_map. cbn [fst].
        rewrite map_id, Hiff. simpl. tauto.
      * intros fn v Hin. apply in_map_iff in Hin.
        destruct Hin as [fn' [[= <- <-] _]]. reflexivity.
Qed.

Section SynchronousExtraction.

Import Script.

Lemma read_params_stops (w : World) (done : list string) (fn : string)
    (later : list string) (e : exn) (acc : Dict ImgEntry) :
  (forall f, In f done -> exists m, get_initial_tif_params w f = Ok m) ->
  get_initial_tif_params w fn = Raise e ->
  for_each (done ++ fn :: later) (read_params w) acc = ([], Raise e).
Proof.
  revert acc. induction done as [|f done IH]; intros acc Hdone Hfn.
  - cbn [app]. rewrite for_each_cons. unfold read_params at 1.
    rewrite Hfn. reflexivity.
  - cbn [app]. rewrite for_each_cons. unfold read_params at 1.
    destruct (Hdone f (or_introl eq_refl)) as [m Hm]. rewrite Hm.
    change (lift (Ok m)) with (ret m). rewrite bind_ret_l, bind_ret_l.
    apply IH; [|exact Hfn]. intros f' Hin. apply Hdone. now right.
Qed.

End SynchronousExtraction.

Section TraceFacts.

Import Script.

Variable p : Event -> bool.

Lemma trace_bind_Ok {A B} (m : M A) (k : A -> M B) (a : A) :
  outcome m = Ok a -> trace (bind m k) = trace m ++ trace (k a).
Proof.
  destruct m as [tr [a'|e]]; simpl; [|discriminate].
  intros [= ->]. now destruct (k a).
Qed.

Lemma trace_bind_Raise {A B} (m : M A) (k : A -> M B) (e : exn) :
  outcome m = Raise e -> trace (bind m k) = trace m.
Proof.
  destruct m as [tr [a'|e']]; simpl; [discriminate|]. reflexivity.
Qed.

Lemma silent_bind {A B} (m : M A) (k : A -> M B) :
  filter p (trace m) = [] -> (forall a, filter p (trace (k a)) = []) ->
  filter p (trace (bind m k)) = [].
Proof.
  destruct m as [tr [a|e]]; simpl; intros Hm Hk.
  - specialize (Hk a). destruct (k a) as [tr' r]. simpl in *.
    now rewrite filter_app, Hm, Hk.
  - exact Hm.
Qed.

Lemma silent_for_each {X S} (l : list X) (body : S -> X -> M S) (s : S) :
  (forall s x, filter p (trace (body s x)) = []) ->
  filter p (trace (for_each l body s)) = [].
Proof.
  intros Hb. revert s. induction l as [|x l IH]; intros s.
  - reflexivity.
  - rewrite for_each_cons. apply silent_bind; auto.
Qed.

Lemma silent_lift {A} (r : result A) : filter p (trace (lift r)) = [].
Proof. reflexivity. Qed.

Lemma silent_ret {A} (a : A) : filter p (trace (ret a)) = [].
Proof. reflexivity. Qed.

Lemma silent_raise {A} (e : exn) : filter p (trace (@raise A e)) = [].
Proof. reflexivity. Qed.

Lemma silent_emit (e : Event) : p e = false -> filter p (trace (emit e)) = [].
Proof. unfold emit. simpl. now intros ->. Qed.

End TraceFacts.

(** Solves [filter p (trace m) = []] for a script that emits no event
    satisfying [p]. *)
Ltac silent :=
  repeat first
    [ apply silent_ret
    | apply silent_raise
    | apply silent_lift
    | apply silent_emit; reflexivity
    | apply silent_for_each; intros
    | apply silent_bind; [|intros]
    | match goal with
      | |- filter _ (Script.trace (if ?b then _ else _)) = [] => destruct b
      | |- filter _ (Script.trace (match ?x with _ => _ end)) = [] =>
          destruct x
      | |- filter _ (Script.trace ?m) = [] =>
          let h := head_of m in progress unfold h
      end ].

Section SavingFacts.

Import Script.

Lemma find_files_saves_nothing cfg w :
  filter is_save (trace (find_files cfg w)) = [].
Proof. silent. Qed.

Lemma peaks_metadata_saves_nothing cfg w files :
  filter is_save (trace (peaks_metadata cfg w files)) = [].
Proof. silent. Qed.

Lemma unet_metadata_saves_nothing cfg w files :
  filter is_save (trace (unet_metadata cfg w files)) = [].
Proof. silent. Qed.

Lemma filter_nil_not_In (tr : list Event) (d : Dict ImgEntry) :
  filter is_save tr = [] -> ~ In (SaveMetadata d) tr.
Proof.
  intros H Hin.
  assert (In (SaveMetadata d) (filter is_save tr)) as Hf
    by (apply filter_In; split; [exact Hin | reflexivity]).
  rewrite H in Hf. exact Hf.
Qed.

End SavingFacts.

(** X5: the segmentation strategy reads the metadata file by file,
    without isolation.  If reading one file raises while the files
    before it were read, the segmentation path ends in that very
    exception - provided the model loaded - having logged only its three
    opening lines; the metadata stage then raises it too and saves no
    metadata table, for the failed file or for any other. *)
Theorem synchronous_extraction_aborts
    (cfg : Script.Config) (w : Script.World)
    (done : list string) (fn : string) (later : list string) (e : exn) :
  Script.load_model w (Script.model_file_path cfg) = Ok tt ->
  (forall f, In f done ->
             exists m, Script.get_initial_tif_params w f = Ok m) ->
  Script.get_initial_tif_params w fn = Raise e ->
  Script.unet_metadata cfg w (done ++ fn :: later)
  = ([Script.Information
        "Identifying channel locations and aligning images using U-net.";
      Script.Information "Loading model...";
      Script.Information "Model loaded."], Raise e)
  /\ (Script.do_metadata cfg = true ->
      Script.find_channels_method cfg = "Unet" ->
      Script.outcome (Script.find_files cfg w) = Ok (done ++ fn :: later) ->
      Script.outcome (Script.metadata_stage cfg w) = Raise e
      /\ forall d, ~ In (Script.SaveMetadata d)
                        (Script.trace (Script.metadata_stage cfg w))).
Proof.
  intros Hmodel Hdone Hfn.
  assert (Script.unet_metadata cfg w (done ++ fn :: later)
          = ([Script.Information
                "Identifying channel locations and aligning images using U-net.";
              Script.Information "Loading model...";
              Script.Information "Model loaded."], Raise e)) as Hunet.
  { unfold Script.unet_metadata. rewrite Hmodel.
    rewrite (read_params_stops w done fn later e [] Hdone Hfn). reflexivity. }
  split; [exact Hunet|].
  intros Hdo Hmethod Hfiles.
  assert (Script.metadata_stage cfg w
          = Script.bind (Script.information "Finding image parameters.")
              (fun _ => Script.bind (Script.find_files cfg w)
                 (fun found_files =>
                    Script.bind
                      (Script.bind (Script.unet_metadata cfg w found_files)
                         (fun r => let (imgs, images) := r in
                                   Script.ret (imgs, Some images)))
                      (fun r => let (analyzed_imgs, trap_images_dict) := r in
                         Script.bind
                           (Script.information
                              "Saving metadata from analyzed images...")
                           (fun _ => Script.bind
                              (Script.emit (Script.SaveMetadata analyzed_imgs))
                              (fun _ => Script.bind
                                 (Script.information
                                    "Saved metadata from analyzed images.")
                                 (fun _ => Script.ret
                                    (analyzed_imgs, trap_images_dict))))))))
    as Hstage.
  { unfold Script.metadata_stage. rewrite Hdo, Hmethod. reflexivity. }
  assert (forall B (k : _ -> Script.M B),
             Script.bind
               (Script.bind
                  (Script.unet_metadata cfg w (done ++ fn :: later))
                  (fun r => let (imgs, images) := r in
                            Script.ret (imgs, Some images))) k
             = ([Script.Information
                   "Identifying channel locations and aligning images using U-net.";
                 Script.Information "Loading model...";
                 Script.Information "Model loaded."], Raise e)) as Hinner.
  { intros B k. rewrite Hunet. reflexivity. }
  rewrite Hstage. split.
  - rewrite (bind_outcome_Ok _ _ tt) by reflexivity.
    rewrite (bind_outcome_Ok _ _ _ Hfiles). now rewrite Hinner.
  - intros d. apply filter_nil_not_In.
    apply silent_bind; [reflexivity|]. intros _.
    rewrite (trace_bind_Ok _ _ _ Hfiles), Hinner, filter_app.
    now rewrite find_files_saves_nothing.
Qed.

(** The theorem on two files, the second of which cannot be read. *)
Lemma synchronous_extraction_aborts_witness :
  Script.unet_metadata
    (Sample.config "Unet" "TIFF" true)
    (Sample.world Sample.two_paths Sample.sample_params Sample.aligned_steady)
    ["e_t0001xy01.tif"; "unreadable.tif"]
  = ([Script.Information
        "Identifying channel locations and aligning images using U-net.";
      Script.Information "Loading model...";
      Script.Information "Model loaded."],
     Raise (HelperError "get_initial_tif_params")).
Proof.
  apply (synchronous_extraction_aborts
           (Sample.config "Unet" "TIFF" true)
           (Sample.world Sample.two_paths Sample.sample_params
                         Sample.aligned_steady)
           ["e_t0001xy01.tif"] "unreadable.tif" []).
  - reflexivity.
  - intros f [<-|[]]. eexists. reflexivity.
  - reflexivity.
Defined.

(** X6: the metadata table is saved exactly when the metadata stage is
    enabled and completes, and the table saved is the table the stage
    hands on to the later stages: a stage that raises saves nothing. *)
Theorem metadata_saved_iff_stage_completes
    (cfg : Script.Config) (w : Script.World) (d : Script.Dict Script.ImgEntry) :
  In (Script.SaveMetadata d) (Script.trace (Script.metadata_stage cfg w)) <->
  Script.do_metadata cfg = true
  /\ exists images,
       Script.outcome (Script.metadata_stage cfg w) = Ok (d, images).
Proof.
  unfold Script.metadata_stage.
  destruct (Script.do_metadata cfg) eqn:Hdo; cbn [negb].
  - match goal with
    | |- context [Script.bind (Script.find_files cfg w) ?k] => set (K := k)
    end.
    pose proof (find_files_outcome cfg w) as Hfind.
    assert (forall m : Script.M (Script.Dict Script.ImgEntry
                                 * option Script.TrapImages),
               filter is_save (Script.trace m) = [] ->
               (In (Script.SaveMetadata d)
                   (Script.trace
                      (Script.bind m
                         (fun r => let (analyzed_imgs, trap_images_dict) := r in
                            Script.bind
                              (Script.information
                                 "Saving metadata from analyzed images...")
                              (fun _ => Script.bind
                                 (Script.emit
                                    (Script.SaveMetadata analyzed_imgs))
                                 (fun _ => Script.bind
                                    (Script.information
                                       "Saved metadata from analyzed images.")
                                    (fun _ => Script.ret
                                       (analyzed_imgs, trap_images_dict)))))))
                <-> exists images,
                     Script.outcome
                       (Script.bind m
                         (fun r => let (analyzed_imgs, trap_images_dict) := r in
                            Script.bind
                              (Script.information
                                 "Saving metadata from analyzed images...")
                              (fun _ => Script.bind
                                 (Script.emit
                                    (Script.SaveMetadata analyzed_imgs))
                                 (fun _ => Script.bind
                                    (Script.information
                                       "Saved metadata from analyzed images.")
                                    (fun _ => Script.ret
                                       (analyzed_imgs, trap_images_dict))))))
                     = Ok (d, images))) as Hsave.
    { intros [tr [[a images]|e]] Hq; simpl in *.
      - rewrite in_app_iff. split.
        + intros [Hin|[H|[H|[H|[]]]]]; try discriminate.
          * exfalso. exact (filter_nil_not_In _ _ Hq Hin).
          * injection H as ->. now exists images.
        + intros [images' [= -> _]]. right. right. now left.
      - split.
        + intros Hin. exfalso. exact (filter_nil_not_In _ _ Hq Hin).
        + intros [images H]. discriminate. }
    rewrite (trace_bind_Ok _ _ tt) by reflexivity.
    rewrite (bind_outcome_Ok _ _ tt) by reflexivity.
    rewrite (trace_bind_Ok _ _ _ Hfind), (bind_outcome_Ok _ _ _ Hfind).
    cbn [Script.trace Script.information Script.emit fst app].
    assert (forall x, In (Script.SaveMetadata d)
                         (Script.Information "Finding image parameters."
                          :: Script.trace (Script.find_files cfg w) ++ x)
                      <-> In (Script.SaveMetadata d) x) as Hpre.
    { intros x. simpl. rewrite in_app_iff. split.
      - intros [H|[H|H]]; [discriminate | | exact H].
        exfalso.
        exact (filter_nil_not_In _ _ (find_files_saves_nothing cfg w) H).
      - auto. }
    rewrite Hpre. subst K. cbv beta.
    rewrite Hsave.
    + split; [intros H; split; [reflexivity | exact H] | intros [_ H]; exact H].
    + silent.
  - split; [|intros [H _]; discriminate].
    intros Hin. exfalso. revert Hin. apply filter_nil_not_In. silent.
Qed.

(** ** Reference-crop selection *)

(** X7: the index the reference-crop selection returns is 0 or 1,
    however many trap regions there are: 0 exactly when there is a
    region and every region passes the top test, 1 exactly when some
    region fails the top test and every region passes the bottom test.
    So a single region that passes the top test is selected whatever
    its bottom test says, and a single region that fails the top test
    but passes the bottom test makes the selection raise [IndexError]
    (index 1 of a one-row array). *)
Theorem selection_index_is_a_test_index :
  (forall centroids rows,
      RefCrop.good_trap_region_index centroids rows = Ok 0%nat <->
      centroids <> []
      /\ forallb (fun b => b) (RefCrop.top_test centroids) = true)
  /\ (forall centroids rows,
         RefCrop.good_trap_region_index centroids rows = Ok 1%nat <->
         forallb (fun b => b) (RefCrop.top_test centroids) = false
         /\ forallb (fun b => b) (RefCrop.bottom_test centroids rows) = true)
  /\ (forall centroids rows i,
         RefCrop.good_trap_region_index centroids rows = Ok i ->
         (i <= 1)%nat)
  /\ (forall c rows,
         (Np.round (fst c) - 256 <= 0) ->
         (Np.round (fst c) + 256 < rows) ->
         RefCrop.anchor_centroid [c] rows = Raise IndexError).
Proof.
  assert (forall centroids rows,
             centroids <> [] ->
             RefCrop.good_trap_region_index centroids rows
             = if forallb (fun b => b) (RefCrop.top_test centroids)
               then Ok 0%nat
               else if forallb (fun b => b)
                               (RefCrop.bottom_test centroids rows)
                    then Ok 1%nat else Raise IndexError) as Hne.
  { intros [|c cs] rows H; [congruence|].
    unfold RefCrop.good_trap_region_index, RefCrop.test_array,
      RefCrop.np_all_axis1, RefCrop.np_where.
    cbn [map RefCrop.np_where_from].
    destruct (forallb (fun b => b) (RefCrop.top_test (c :: cs)));
      destruct (forallb (fun b => b) (RefCrop.bottom_test (c :: cs) rows));
      reflexivity. }
  split; [|split; [|split]].
  - intros [|c cs] rows.
    + simpl. split; [discriminate | intros [H _]; congruence].
    + rewrite Hne by discriminate.
      destruct (forallb _ (RefCrop.top_test (c :: cs)));
        [|destruct (forallb _ (RefCrop.bottom_test (c :: cs) rows))];
        split; try discriminate; try (intros [_ H]; discriminate);
        intros _; split; [discriminate | reflexivity].
  - intros [|c cs] rows.
    + simpl. split; [discriminate | intros [H _]; discriminate].
    + rewrite Hne by discriminate.
      destruct (forallb _ (RefCrop.top_test (c :: cs)));
        [|destruct (forallb _ (RefCrop.bottom_test (c :: cs) rows))];
        split; try discriminate; try (intros [H1 H2]; discriminate); auto.
  - intros [|c cs] rows i.
    + discriminate.
    + rewrite Hne by discriminate.
      destruct (forallb _ (RefCrop.top_test (c :: cs)));
        [|destruct (forallb _ (RefCrop.bottom_test (c :: cs) rows))];
        intros [= <-]; lia.
  - intros c rows Htop Hbottom.
    unfold RefCrop.anchor_centroid. cbn [RefCrop.rounded map].
    rewrite Hne by discriminate.
    cbn [RefCrop.top_test RefCrop.bottom_test map forallb fst].
    destruct (Z.ltb_spec 0 (Np.round (fst c) - 256)); [lia|].
    destruct (Z.ltb_spec (Np.round (fst c) + 256) rows); [|lia].
    reflexivity.
Qed.

(** ** The area filter *)

Section FilterMore.

Lemma length_filter_area (m : Z) (props : list TrapRegion) :
  length (filter (fun trap => negb (area_differs (area trap) (Some m))) props)
  = count_occ Z.eq_dec (map area props) m.
Proof.
  induction props as [|trap props IH]; [reflexivity|].
  cbn [filter map count_occ].
  destruct (area_differs (area trap) (Some m)) eqn:E; cbn [negb];
    destruct (Z.eq_dec (area trap) m) as [He|Hne]; cbn [length];
    rewrite ?IH; try reflexivity.
  - exfalso. assert (area_differs (area trap) (Some m) = false) as E'
      by (apply area_differs_false; congruence).
    congruence.
  - exfalso. apply area_differs_false in E. congruence.
Qed.

Lemma filter_split_length {A} (f : A -> bool) (l : list A) :
  (length (filter (fun x => negb (f x)) l) + length (filter f l)
   = length l)%nat.
Proof.
  induction l as [|x l IH]; [reflexivity|].
  cbn [filter]. destruct (f x); cbn [negb length]; lia.
Qed.

End FilterMore.

(** X8: the area filter splits the regions of a batch: every region
    is either accepted or has its label listed as bad.  Of a non-empty
    batch it never rejects every region: the accepted regions are as
    many as the regions of the modal area, at least one, and no other
    area is shared by more regions than were accepted. *)
Theorem area_filter_keeps_the_largest_class (props : list TrapRegion) :
  (length (good_align_trap_props props)
   + length (bad_align_trap_props props) = length props)%nat
  /\ (props <> [] ->
      good_align_trap_props props <> []
      /\ forall a,
           (count_occ Z.eq_dec (map area props) a
            <= length (good_align_trap_props props))%nat).
Proof.
  unfold good_align_trap_props, bad_align_trap_props, classify.
  rewrite classify_fold. cbn [fst snd app].
  split.
  - rewrite length_map. apply filter_split_length.
  - intros Hne.
    destruct (stats_mode_some (map area props)) as [m Hm].
    { destruct props; [congruence | discriminate]. }
    rewrite Hm, length_filter_area.
    destruct (stats_mode_most_frequent _ _ Hm) as (Hin & Hmax & _).
    split; [|exact Hmax].
    intros Hnil.
    assert (length (filter (fun trap => negb (area_differs (area trap) (Some m)))
                           props) = 0%nat) as H0 by now rewrite Hnil.
    rewrite length_filter_area in H0.
    apply (count_occ_In Z.eq_dec) in Hin. lia.
Qed.

(** ** Frame selection for slicing *)

(** X9: the body of the slicing loop of the peak strategy (lines
    408-426) never reads a record.  For a field of view the user did not
    ask for it does nothing; for any other it logs the loading line and
    raises [NameError] on [six], whatever the metadata table, the
    channel masks and the output format are: no frame is selected and no
    writer is called. *)
Theorem frame_selection_raises_NameError
    (cfg : Script.Config) (w : Script.World)
    (channel_masks : Script.ChannelMasks)
    (analyzed_imgs : Script.Dict Script.ImgEntry) (entry : Z * list Z) :
  Script.slice_fov cfg w channel_masks analyzed_imgs tt entry
  = if (0 <? length (Script.user_spec_fovs cfg))%nat
       && negb (existsb (Z.eqb (fst entry)) (Script.user_spec_fovs cfg))
    then ([], Ok tt)
    else ([Script.Information
             ("Loading images for FOV " ++ Script.fmt_0d 3 (fst entry)
              ++ ".")],
          Raise (NameError "six")).
Proof.
  unfold Script.slice_fov.
  destruct ((0 <? length (Script.user_spec_fovs cfg))%nat
            && negb (existsb (Z.eqb (fst entry)) (Script.user_spec_fovs cfg)));
    reflexivity.
Qed.

(** ** Shift estimation on rigidly moved frames *)

Section RigidFacts.







End RigidFacts.





(** ** Writer calls of a whole run *)

Section WriterFacts.

Import Script.

Lemma writes_bind_Ok {A B} (m : M A) (k : A -> M B) (a : A) :
  outcome m = Ok a -> writes (bind m k) = writes m ++ writes (k a).
Proof.
  intros H. unfold writes. rewrite (trace_bind_Ok _ _ _ H).
  apply filter_app.
Qed.

Lemma writes_bind_Raise {A B} (m : M A) (k : A -> M B) (e : exn) :
  outcome m = Raise e -> writes (bind m k) = writes m.
Proof.
  intros H. unfold writes. now rewrite (trace_bind_Raise _ _ _ H).
Qed.

(** [trap_images_dict] is bound only by the segmentation path of the
    metadata stage. *)
Lemma metadata_stage_images cfg w imgs images :
  outcome (metadata_stage cfg w) = Ok (imgs, Some images) ->
  do_metadata cfg = true /\ find_channels_method cfg = "Unet".
Proof.
  unfold metadata_stage. destruct (do_metadata cfg); cbn [negb]; intros H.
  - split; [reflexivity|].
    repeat (apply bind_Ok in H; destruct H as [? [? H]]).
    repeat match goal with
           | x : (_ * _)%type |- _ => destruct x
           end.
    repeat (apply bind_Ok in H; destruct H as [? [? H]]).
    injection H as -> ->.
    destruct (String.eqb_spec (find_channels_method cfg) "peaks") as [E|E].
    + match goal with
      | Hb : outcome (bind _ _) = Ok (_, Some _) |- _ =>
          apply bind_Ok in Hb; destruct Hb as [? [_ Hb]]; discriminate Hb
      end.
    + destruct (String.eqb_spec (find_channels_method cfg) "Unet") as [E'|E'];
        [exact E'|].
      match goal with
      | Hb : outcome (ret _) = Ok (_, Some _) |- _ => discriminate Hb
      end.
  - exfalso. repeat (apply bind_Ok in H; destruct H as [? [? H]]).
    discriminate H.
Qed.

Lemma before_slicing_images cfg w imgs masks images :
  outcome (before_slicing cfg w) = Ok (imgs, masks, Some images) ->
  do_metadata cfg = true /\ find_channels_method cfg = "Unet".
Proof.
  unfold before_slicing. intros H.
  apply bind_Ok in H. destruct H as [? [_ H]].
  apply bind_Ok in H. destruct H as [[a t] [Hm H]].
  apply bind_Ok in H. destruct H as [? [_ H]].
  apply bind_Ok in H. destruct H as [[a' m] [_ H]].
  injection H as _ _ ->. eapply metadata_stage_images; eauto.
Qed.

Lemma slicing_stage_writes cfg w imgs masks images :
  writes (slicing_stage cfg w imgs masks images) = []
  \/ exists i,
       images = Some i
       /\ writes (slicing_stage cfg w imgs masks images) = [SaveTiffs i]
       /\ do_slicing cfg = true
       /\ find_channels_method cfg = "Unet" /\ output cfg = "TIFF".
Proof.
  unfold slicing_stage.
  destruct (do_slicing cfg); [|now left].
  destruct (String.eqb_spec (find_channels_method cfg) "peaks") as [E|E].
  - left. reflexivity.
  - destruct (String.eqb_spec (find_channels_method cfg) "Unet") as [E'|E'].
    + destruct (String.eqb_spec (output cfg) "TIFF") as [Eo|Eo].
      * destruct images as [i|].
        -- right. exists i. repeat split; auto.
           simpl. destruct (save_tiffs w i imgs); reflexivity.
        -- left. reflexivity.
      * left. reflexivity.
    + left. reflexivity.
Qed.

End WriterFacts.

(** The writer calls of a run. *)
Lemma main_writes (cfg : Script.Config) (w : Script.World) :
  Script.writes (Script.main cfg w) = []
  \/ exists images,
       Script.writes (Script.main cfg w) = [Script.SaveTiffs images]
       /\ Script.find_channels_method cfg = "Unet"
       /\ Script.output cfg = "TIFF"
       /\ Script.do_slicing cfg = true
       /\ Script.do_metadata cfg = true.
Proof.
  unfold Script.main.
  destruct (Script.outcome (Script.before_slicing cfg w))
    as [[[imgs masks] images]|e] eqn:E.
  - rewrite (writes_bind_Ok _ _ _ E), writes_before_slicing. cbn [app].
    destruct (slicing_stage_writes cfg w imgs masks images)
      as [H|(i & -> & H & Hs & Hm & Ho)].
    + now left.
    + right. exists i. destruct (before_slicing_images _ _ _ _ _ E). auto.
  - left. rewrite (writes_bind_Raise _ _ _ E). apply writes_before_slicing.
Qed.

(** X12: whatever the configuration and the collaborators, a run calls
    a stack writer at most once, and never [tiff_stack_slice_and_write]
    or [hdf5_stack_slice_and_write]: the only writer call a run can make
    is one [save_tiffs], and only with the segmentation strategy, TIFF
    output, slicing enabled and the metadata stage run in the same
    invocation. *)
Theorem at_most_one_writer_call (cfg : Script.Config) (w : Script.World) :
  Script.writes (Script.main cfg w) = []
  \/ exists images,
       Script.writes (Script.main cfg w) = [Script.SaveTiffs images]
       /\ Script.find_channels_method cfg = "Unet"
       /\ Script.output cfg = "TIFF"
       /\ Script.do_slicing cfg = true
       /\ Script.do_metadata cfg = true.
Proof.
  exact (main_writes cfg w).
Qed.

(** X13: slicing from saved metadata is impossible on the segmentation
    path.  With the metadata stage switched off, the segmentation
    strategy, TIFF output and slicing enabled, a run always ends in an
    exception and calls no writer; when the stages before slicing
    complete, the exception is [NameError] for [trap_images_dict], the
    variable only the metadata stage assigns. *)
Theorem slicing_needs_metadata_stage (cfg : Script.Config) (w : Script.World) :
  Script.do_metadata cfg = false ->
  Script.find_channels_method cfg = "Unet" ->
  Script.output cfg = "TIFF" ->
  Script.do_slicing cfg = true ->
  Script.writes (Script.main cfg w) = []
  /\ (exists e, Script.outcome (Script.main cfg w) = Raise e)
  /\ (forall st,
         Script.outcome (Script.before_slicing cfg w) = Ok st ->
         Script.outcome (Script.main cfg w)
         = Raise (NameError "trap_images_dict")).
Proof.
  intros Hdo Hm Ho Hs.
  assert (forall imgs masks images,
             Script.outcome (Script.before_slicing cfg w)
             = Ok (imgs, masks, images) ->
             Script.outcome (Script.main cfg w)
             = Raise (NameError "trap_images_dict")) as Hname.
  { intros imgs masks images E. unfold Script.main.
    rewrite (bind_outcome_Ok _ _ _ E).
    destruct images as [i|].
    - destruct (before_slicing_images _ _ _ _ _ E). congruence.
    - unfold Script.slicing_stage. rewrite Hs, Hm, Ho. reflexivity. }
  split; [|split].
  - destruct (main_writes cfg w) as [H|(i & _ & _ & _ & _ & H)];
      [exact H | congruence].
  - destruct (Script.outcome (Script.before_slicing cfg w))
      as [[[imgs masks] images]|e] eqn:E.
    + exists (NameError "trap_images_dict"). eapply Hname. reflexivity.
    + exists e. unfold Script.main. now apply bind_outcome_Raise.
  - intros [[imgs masks] images] E. eapply Hname. exact E.
Qed.

(** The theorem on a run that loads an empty saved table. *)
Lemma slicing_needs_metadata_stage_witness :
  Script.outcome
    (Script.main config_without_metadata
       (Sample.world Sample.two_paths Sample.sample_params
                     Sample.aligned_steady))
  = Raise (NameError "trap_images_dict").
Proof.
  destruct (slicing_needs_metadata_stage
              config_without_metadata
              (Sample.world Sample.two_paths Sample.sample_params
                            Sample.aligned_steady)
              eq_refl eq_refl eq_refl eq_refl)
    as (_ & _ & H).
  apply (H ([], Some [(1, [1])], None)). reflexivity.
Defined.

(** ** Channel geometry of the segmentation path *)

Section ChannelFacts.

Import Script.

Lemma dict_get_set_same {V} (d : Dict V) (k : string) (v : V) :
  dict_get (dict_set d k v) k = Some v.
Proof.
  induction d as [|[k' v'] d IH]; cbn [dict_set dict_get].
  - now rewrite String.eqb_refl.
  - destruct (String.eqb_spec k' k) as [->|Hne]; cbn [dict_get].
    + now rewrite String.eqb_refl.
    + destruct (String.eqb_spec k' k); [congruence | exact IH].
Qed.

Lemma dict_get_set_other {V} (d : Dict V) (k k0 : string) (v : V) :
  k0 <> k -> dict_get (dict_set d k v) k0 = dict_get d k0.
Proof.
  intros Hne. induction d as [|[k' v'] d IH]; cbn [dict_set dict_get].
  - destruct (String.eqb_spec k k0); [congruence | reflexivity].
  - destruct (String.eqb_spec k' k) as [->|Hk]; cbn [dict_get].
    + destruct (String.eqb_spec k k0); [congruence | reflexivity].
    + destruct (String.eqb_spec k' k0); [reflexivity | exact IH].
Qed.

Lemma keys_set_present {V} (d : Dict V) (k : string) (v v0 : V) :
  dict_get d k = Some v0 -> keys (dict_set d k v) = keys d.
Proof.
  induction d as [|[k' v'] d IH]; cbn [dict_set dict_get]; [discriminate|].
  destruct (String.eqb_spec k' k) as [->|Hne]; intros H.
  - reflexivity.
  - unfold keys in *. cbn [map fst]. f_equal. auto.
Qed.

Lemma dict_get_In {V} (d : Dict V) (k : string) (v : V) :
  dict_get d k = Some v -> In (k, v) d.
Proof.
  induction d as [|[k' v'] d IH]; cbn [dict_get]; [discriminate|].
  destruct (String.eqb_spec k' k) as [->|Hne].
  - intros [= ->]. now left.
  - intros H. right. auto.
Qed.

Lemma In_dict_get {V} (d : Dict V) (k : string) (v : V) :
  NoDup (keys d) -> In (k, v) d -> dict_get d k = Some v.
Proof.
  induction d as [|[k' v'] d IH]; [contradiction|].
  unfold keys. cbn [map fst dict_get]. intros Hnd [H|H].
  - injection H as -> ->. now rewrite String.eqb_refl.
  - inversion Hnd as [|? ? Hnin Hnd']; subst.
    destruct (String.eqb_spec k' k) as [->|Hne].
    + exfalso. apply Hnin. change k with (fst (k, v)). now apply in_map.
    + now apply IH.
Qed.

Lemma keys_set {V} (d : Dict V) (k : string) (v : V) :
  (In k (keys d) /\ keys (dict_set d k v) = keys d)
  \/ (~ In k (keys d) /\ keys (dict_set d k v) = keys d ++ [k]).
Proof.
  destruct (dict_get d k) as [v0|] eqn:E.
  - left. split; [|eapply keys_set_present; eauto].
    apply dict_get_In in E. change k with (fst (k, v0)). now apply in_map.
  - right. assert (~ In k (keys d)) as Hn.
    { clear v. induction d as [|[k' v'] d IH]; [auto|].
      cbn [dict_get] in E. destruct (String.eqb_spec k' k); [discriminate|].
      unfold keys. cbn [map fst]. intros [H|H]; [congruence|].
      now apply IH. }
    split; [exact Hn|]. rewrite dict_set_fresh by exact Hn.
    unfold keys. now rewrite map_app.
Qed.

(** The synchronous reading loop keeps the keys distinct and adds a key
    for every file it reads. *)
Lemma read_params_keys (w : World) (files : list string)
    (acc d : Dict ImgEntry) :
  outcome (for_each files (read_params w) acc) = Ok d ->
  NoDup (keys acc) ->
  NoDup (keys d)
  /\ forall fn, In fn (keys d) <-> In fn (keys acc) \/ In fn files.
Proof.
  revert acc. induction files as [|f files IH]; intros acc H Hnd.
  - injection H as <-. split; [exact Hnd|]. intros fn. simpl. tauto.
  - rewrite for_each_cons in H. apply bind_Ok in H.
    destruct H as [acc' [Hstep H]].
    unfold read_params in Hstep. apply bind_Ok in Hstep.
    destruct Hstep as [m [_ Hset]]. injection Hset as <-.
    assert (NoDup (keys (dict_set acc f (Meta m)))
            /\ forall fn, In fn (keys (dict_set acc f (Meta m)))
                          <-> In fn (keys acc) \/ fn = f) as [Hnd' Hk].
    { destruct (keys_set acc f (Meta m)) as [[Hf E]|[Hn E]]; rewrite E.
      - split; [exact Hnd|]. intros fn. split; [auto|].
        intros [Hin|Heq]; [exact Hin | now subst fn].
      - split.
        + apply NoDup_app; [exact Hnd | repeat constructor; auto |].
          intros x Hx [<-|[]]. contradiction.
        + intros fn. rewrite in_app_iff. simpl. intuition. }
    destruct (IH _ H Hnd') as [Hd Hkeys]. split; [exact Hd|].
    intros fn. rewrite Hkeys, Hk. simpl. intuition.
Qed.

Lemma set_channels_step (ce : Dict Channels) (acc acc' : Dict ImgEntry)
    (n : string) :
  outcome (set_channels ce acc n) = Ok acc' ->
  keys acc' = keys acc
  /\ has_channels acc' n
  /\ forall fn, has_channels acc fn -> has_channels acc' fn.
Proof.
  unfold set_channels. intros Hstep.
  destruct (dict_get acc n) as [[o|m|]|] eqn:Eg; try discriminate Hstep.
  destruct (dict_get ce n) as [ch|] eqn:Ec; [|discriminate Hstep].
  injection Hstep as <-. split; [|split].
  - eapply keys_set_present; eauto.
  - eexists. exists ch. split; [apply dict_get_set_same | reflexivity].
  - intros fn (m0 & ch0 & Hg & Hc).
    destruct (string_dec fn n) as [->|Hne].
    + eexists. exists ch. split; [apply dict_get_set_same | reflexivity].
    + exists m0, ch0. split; [|exact Hc].
      now rewrite dict_get_set_other.
Qed.

(** The loop of lines 367-368 keeps the keys and leaves every file it
    visits with channel geometry. *)
Lemma set_channels_all (ce : Dict Channels) (names : list string)
    (acc d : Dict ImgEntry) :
  outcome (for_each names (set_channels ce) acc) = Ok d ->
  keys d = keys acc
  /\ forall fn, In fn names \/ has_channels acc fn -> has_channels d fn.
Proof.
  revert acc. induction names as [|n names IH]; intros acc H.
  - injection H as <-. split; [reflexivity|]. intros fn [[]|Hc]. exact Hc.
  - rewrite for_each_cons in H. apply bind_Ok in H.
    destruct H as [acc' [Hstep H]].
    destruct (set_channels_step _ _ _ _ Hstep) as (Hk & Hn & Hkeep).
    destruct (IH _ H) as (Hk' & Hall). split; [congruence|].
    intros fn [[<-|Hin]|Hc]; apply Hall; auto.
Qed.

End ChannelFacts.

(** X14: when the segmentation path of the metadata stage completes,
    the table it returns has one record per distinct file read, and
    every record holds metadata with channel geometry set - none is left
    without channels. *)
Theorem unet_success_sets_all_channels
    (cfg : Script.Config) (w : Script.World) (files : list string)
    (imgs : Script.Dict Script.ImgEntry) (images : Script.TrapImages) :
  Script.outcome (Script.unet_metadata cfg w files) = Ok (imgs, images) ->
  NoDup (Script.keys imgs)
  /\ (forall fn, In fn (Script.keys imgs) <-> In fn files)
  /\ forall fn v,
       In (fn, v) imgs ->
       exists m ch, v = Script.Meta m /\ Script.channels m = Some ch.
Proof.
  unfold Script.unet_metadata. intros H.
  repeat first
    [ apply bind_Ok in H; destruct H as [? [? H]]
    | match goal with
      | x : (_ * _)%type |- _ => destruct x
      end ].
  injection H as <- <-.
  match goal with
  | Hr : Script.outcome (Script.for_each files (Script.read_params w) [])
         = Ok ?d0,
    Hs : Script.outcome
           (Script.for_each (Script.sorted_file_names ?d0)
                            (Script.set_channels _) ?d0) = Ok ?d1 |- _ =>
      destruct (read_params_keys w files [] d0 Hr (NoDup_nil _)) as [Hnd Hkeys];
      destruct (set_channels_all _ _ _ _ Hs) as [Hk Hall];
      rename d0 into read; rename d1 into final
  end.
  rewrite Hk. split; [exact Hnd|]. split.
  - intros fn. rewrite Hkeys. simpl. tauto.
  - intros fn v Hin.
    assert (In fn (Script.keys read)) as Hfn.
    { rewrite <- Hk. change fn with (fst (fn, v)). now apply in_map. }
    destruct (Hall fn) as (m & ch & Hg & Hc).
    { left. unfold Script.sorted_file_names.
      destruct (sort_names_facts (Script.keys read)) as [_ Hp].
      exact (Permutation_in _ Hp Hfn). }
    exists m, ch. split; [|exact Hc].
    assert (Script.dict_get final fn = Some v) as Hv.
    { apply In_dict_get; [now rewrite Hk | exact Hin]. }
    congruence.
Qed.

(** The theorem on a run of two frames. *)
Lemma unet_success_sets_all_channels_witness :
  NoDup ["e_t0001xy01.tif"; "e_t0002xy01.tif"].
Proof.
  exact (proj1 (unet_success_sets_all_channels
                  (Sample.config "Unet" "TIFF" true)
                  (Sample.world Sample.two_paths Sample.sample_params
                                Sample.aligned_steady)
                  ["e_t0001xy01.tif"; "e_t0002xy01.tif"]
                  [("e_t0001xy01.tif",
                    Script.Meta
                      (Script.mkMetadata 1 1 ["c1"] (Some [(1, 900)])));
                   ("e_t0002xy01.tif",
                    Script.Meta
                      (Script.mkMetadata 1 2 ["c1"] (Some [(1, 900)])))]
                  _ eq_refl)).
Defined.

(** * Fatal conditions of the segmentation path *)

(** ** The path up to a failing step *)

Section SegmentationPrefix.

Import Script.

Lemma read_params_quiet (w : World) (files : list string)
    (acc : Dict ImgEntry) :
  trace (for_each files (read_params w) acc) = [].
Proof.
  revert acc. induction files as [|f files IH]; intros acc; [reflexivity|].
  rewrite for_each_cons. unfold read_params at 1.
  destruct (get_initial_tif_params w f) as [m|e]; [|reflexivity].
  change (lift (Ok m)) with (ret m). rewrite !bind_ret_l. apply IH.
Qed.

Lemma read_params_value (w : World) (files : list string)
    (imgs : Dict ImgEntry) :
  outcome (for_each files (read_params w) []) = Ok imgs ->
  for_each files (read_params w) [] = ([], Ok imgs).
Proof.
  intros H. pose proof (read_params_quiet w files []) as Hq.
  destruct (for_each files (read_params w) []) as [tr r].
  simpl in *. now subst.
Qed.

Variables (cfg : Config) (w : World).
Variables (files : list string) (imgs : Dict ImgEntry).
Variables (fn0 : string) (more : list string) (first : FirstFrame).

Hypothesis Hmodel : load_model w (model_file_path cfg) = Ok tt.
Hypothesis Hread : outcome (for_each files (read_params w) []) = Ok imgs.
Hypothesis Hnames : sorted_file_names imgs = fn0 :: more.
Hypothesis Hframe : read_first_frame w fn0 = Ok tt.
Hypothesis Hdetect : detect_traps w fn0 = Ok first.

Lemma unet_metadata_selection_fails (e : exn) :
  RefCrop.anchor_centroid (dilated_centroids first) (frame_rows first)
  = Raise e ->
  unet_metadata cfg w files
  = ([Information
        "Identifying channel locations and aligning images using U-net.";
      Information "Loading model...";
      Information "Model loaded.";
      Information "Waiting for image metadata pool to be finished.";
      Information "Image metadata pool finished, getting results.";
      Print "Predicting trap locations for first frame."], Raise e).
Proof.
  intros Hsel. unfold unet_metadata.
  rewrite Hmodel, (read_params_value w files imgs Hread).
  cbn [bind lift information print emit ret app].
  rewrite Hnames. cbn [first_name bind ret app].
  rewrite Hframe. cbn [bind lift app]. rewrite Hdetect. cbn [bind lift app].
  rewrite Hsel. reflexivity.
Qed.

Lemma unet_metadata_estimation_fails (centroid : Z * Z)
    (props : list TrapRegion) (stack : LabelStack) (e : exn) :
  RefCrop.anchor_centroid (dilated_centroids first) (frame_rows first)
  = Ok centroid ->
  crop_frames w (fn0 :: more) centroid = Ok tt ->
  align_regions w (fn0 :: more) centroid = Ok (props, stack) ->
  Float64.estimate_shifts (regionprops_centroids w) (filter_stack props stack)
  = Raise e ->
  unet_metadata cfg w files
  = ([Information
        "Identifying channel locations and aligning images using U-net.";
      Information "Loading model...";
      Information "Model loaded.";
      Information "Waiting for image metadata pool to be finished.";
      Information "Image metadata pool finished, getting results.";
      Print "Predicting trap locations for first frame.";
      Print
        "Predicting trap regions for (512,512) slice through all frames."],
     Raise e).
Proof.
  intros Hsel Hcrop Halign Hest. unfold unet_metadata.
  rewrite Hmodel, (read_params_value w files imgs Hread).
  cbn [bind lift information print emit ret app].
  rewrite Hnames. cbn [first_name bind ret app].
  rewrite Hframe. cbn [bind lift app]. rewrite Hdetect. cbn [bind lift app].
  rewrite Hsel. cbn [bind lift app]. rewrite Hcrop. cbn [bind lift app].
  rewrite Halign. cbn [bind lift app]. rewrite Hest. reflexivity.
Qed.

End SegmentationPrefix.

Section FatalRun.

Import Script.

Lemma setup_completes cfg w : outcome (setup cfg w) = Ok tt.
Proof.
  unfold setup, ensure_dir.
  destruct (path_exists w (ana_dir cfg));
    destruct (String.eqb (output cfg) "TIFF");
    destruct (String.eqb (output cfg) "HDF5");
    try destruct (path_exists w (chnl_dir cfg));
    try destruct (path_exists w (hdf5_dir cfg)); reflexivity.
Qed.

Lemma setup_saves_nothing cfg w : filter is_save (trace (setup cfg w)) = [].
Proof. silent. Qed.

(** A segmentation path that raises ends the metadata stage and the
    run with the same exception; no metadata table is saved and no
    writer is called. *)
Lemma unet_failure_is_fatal cfg w files e :
  do_metadata cfg = true ->
  find_channels_method cfg = "Unet" ->
  outcome (find_files cfg w) = Ok files ->
  outcome (unet_metadata cfg w files) = Raise e ->
  outcome (metadata_stage cfg w) = Raise e
  /\ outcome (main cfg w) = Raise e
  /\ writes (main cfg w) = []
  /\ (forall d, ~ In (SaveMetadata d) (trace (main cfg w)))
  /\ trace (main cfg w)
     = trace (setup cfg w)
       ++ Information "Finding image parameters."
          :: trace (find_files cfg w) ++ trace (unet_metadata cfg w files).
Proof.
  intros Hdo Hmethod Hfiles Hunet.
  assert (metadata_stage cfg w
          = bind (information "Finding image parameters.")
              (fun _ => bind (find_files cfg w)
                 (fun found_files =>
                    bind
                      (bind (unet_metadata cfg w found_files)
                         (fun r => let (imgs, images) := r in
                                   ret (imgs, Some images)))
                      (fun r => let (analyzed_imgs, trap_images_dict) := r in
                         bind
                           (information
                              "Saving metadata from analyzed images...")
                           (fun _ => bind
                              (emit (SaveMetadata analyzed_imgs))
                              (fun _ => bind
                                 (information
                                    "Saved metadata from analyzed images.")
                                 (fun _ => ret
                                    (analyzed_imgs, trap_images_dict))))))))
    as Hstage.
  { unfold metadata_stage. rewrite Hdo, Hmethod. reflexivity. }
  assert (outcome (metadata_stage cfg w) = Raise e) as Hout.
  { rewrite Hstage. rewrite (bind_outcome_Ok _ _ tt) by reflexivity.
    rewrite (bind_outcome_Ok _ _ _ Hfiles).
    apply bind_outcome_Raise. now apply bind_outcome_Raise. }
  assert (filter is_save (trace (metadata_stage cfg w)) = []) as Hquiet.
  { rewrite Hstage. apply silent_bind; [reflexivity|]. intros _.
    rewrite (trace_bind_Ok _ _ _ Hfiles), filter_app.
    rewrite find_files_saves_nothing. cbn [app].
    rewrite (trace_bind_Raise _ _ e)
      by now apply bind_outcome_Raise.
    rewrite (trace_bind_Raise _ _ e) by exact Hunet.
    apply unet_metadata_saves_nothing. }
  assert (outcome (before_slicing cfg w) = Raise e) as Hbefore.
  { unfold before_slicing.
    rewrite (bind_outcome_Ok _ _ tt) by apply setup_completes.
    now apply bind_outcome_Raise. }
  assert (filter is_save (trace (before_slicing cfg w)) = []) as Hbq.
  { unfold before_slicing.
    rewrite (trace_bind_Ok _ _ tt) by apply setup_completes.
    rewrite filter_app, setup_saves_nothing. cbn [app].
    now rewrite (trace_bind_Raise _ _ e) by exact Hout. }
  split; [exact Hout|]. unfold main.
  split; [now apply bind_outcome_Raise|].
  split.
  { rewrite (writes_bind_Raise _ _ e) by exact Hbefore.
    apply writes_before_slicing. }
  split.
  { intros d. apply filter_nil_not_In.
    now rewrite (trace_bind_Raise _ _ e) by exact Hbefore. }
  rewrite (trace_bind_Raise _ _ e) by exact Hbefore.
  unfold before_slicing.
  rewrite (trace_bind_Ok _ _ tt) by apply setup_completes.
  rewrite (trace_bind_Raise _ _ e) by exact Hout.
  f_equal. rewrite Hstage.
  rewrite (trace_bind_Ok _ _ tt) by reflexivity.
  rewrite (trace_bind_Ok _ _ _ Hfiles).
  rewrite (trace_bind_Raise _ _ e) by now apply bind_outcome_Raise.
  rewrite (trace_bind_Raise _ _ e) by exact Hunet.
  reflexivity.
Qed.

End FatalRun.

(** X15: nothing catches an exception of the segmentation path.  If the
    path raises [e] on the files found, the metadata stage and the whole
    run end in [e]; no metadata table is saved, no stack writer is
    called, and the events of the run are those of the set-up, of the
    file search and of the path up to the exception. *)
Theorem segmentation_failure_is_fatal
    (cfg : Script.Config) (w : Script.World) (files : list string) (e : exn) :
  Script.do_metadata cfg = true ->
  Script.find_channels_method cfg = "Unet" ->
  Script.outcome (Script.find_files cfg w) = Ok files ->
  Script.outcome (Script.unet_metadata cfg w files) = Raise e ->
  Script.outcome (Script.metadata_stage cfg w) = Raise e
  /\ Script.outcome (Script.main cfg w) = Raise e
  /\ Script.writes (Script.main cfg w) = []
  /\ (forall d, ~ In (Script.SaveMetadata d) (Script.trace (Script.main cfg w)))
  /\ Script.trace (Script.main cfg w)
     = Script.trace (Script.setup cfg w)
       ++ Script.Information "Finding image parameters."
          :: Script.trace (Script.find_files cfg w)
          ++ Script.trace (Script.unet_metadata cfg w files).
Proof. apply unet_failure_is_fatal. Qed.

(** The theorem on a run whose only input file cannot be read. *)
Lemma segmentation_failure_is_fatal_witness :
  let run :=
    Script.main (Sample.config "Unet" "TIFF" true)
                (Sample.world ["/data/TIFF/unreadable.tif"]
                              Sample.sample_params Sample.aligned_steady) in
  Script.outcome run = Raise (HelperError "get_initial_tif_params")
  /\ Script.writes run = [].
Proof.
  intros run.
  pose proof (segmentation_failure_is_fatal
                (Sample.config "Unet" "TIFF" true)
                (Sample.world ["/data/TIFF/unreadable.tif"]
                              Sample.sample_params Sample.aligned_steady)
                ["unreadable.tif"] (HelperError "get_initial_tif_params")
                eq_refl eq_refl eq_refl eq_refl) as (_ & H2 & H3 & _).
  split; [exact H2 | exact H3].
Defined.

(** ** Mismatched region counts *)

Section EstimateMore.

Lemma estimate_shifts_uniform
    (regionprops : LabelImage -> list Float64.Centroid) (stack : LabelStack)
    (shifts : list (Z * Z)) :
  Float64.estimate_shifts regionprops stack = Ok shifts ->
  exists n, n <> 0%nat
            /\ forall img, In img stack -> length (regionprops img) = n.
Proof.
  intros H. unfold Float64.estimate_shifts in H.
  apply float64_shifts_Ok in H.
  destruct H as (first & rest & Hcs & Hne & Hall).
  exists (length first). split.
  - destruct first; [congruence | discriminate].
  - intros img Hin. apply (in_map regionprops) in Hin. rewrite Hcs in Hin.
    destruct Hin as [<-|Hin]; [reflexivity|].
    rewrite Forall_forall in Hall. auto.
Qed.

Lemma estimate_shifts_mismatch
    (regionprops : LabelImage -> list Float64.Centroid)
    (frame0 : LabelImage) (later : LabelStack) (img : LabelImage) :
  In img later ->
  length (regionprops img) <> length (regionprops frame0) ->
  Float64.estimate_shifts regionprops (frame0 :: later) = Raise IndexError.
Proof.
  intros Hin Hlen. unfold Float64.estimate_shifts. cbn [map].
  apply float64_shifts_irregular.
  exists (regionprops img). split; [now apply in_map | exact Hlen].
Qed.

End EstimateMore.

(** C4, as the code has it.  A later frame whose number of accepted
    centroids differs from that of frame 0 makes the centroid array lose
    its third dimension, and indexing it raises [IndexError]: no shift
    is estimated, for that frame or for any other.  Shifts are produced
    only when every frame holds the same non-zero number of centroids,
    so mismatched centroids are never averaged.  And in a run of the
    segmentation strategy that reaches the drift estimation with such a
    stack, the exception is fatal: the segmentation path stops after its
    seventh progress line, the metadata stage and the run end in
    [IndexError], no metadata table is saved and no stack writer is
    called - for the mismatched frame or for any other. *)
Theorem count_mismatch_raises :
  (forall regionprops frame0 later img,
      In img later ->
      length (regionprops img) <> length (regionprops frame0) ->
      Float64.estimate_shifts regionprops (frame0 :: later)
      = Raise IndexError)
  /\ (forall regionprops stack shifts,
         Float64.estimate_shifts regionprops stack = Ok shifts ->
         exists n, n <> 0%nat
                   /\ forall img, In img stack ->
                                  length (regionprops img) = n)
  /\ (forall cfg w files imgs fn0 more first centroid props stack
             frame0 later img,
         Script.load_model w (Script.model_file_path cfg) = Ok tt ->
         Script.outcome (Script.for_each files (Script.read_params w) [])
         = Ok imgs ->
         Script.sorted_file_names imgs = fn0 :: more ->
         Script.read_first_frame w fn0 = Ok tt ->
         Script.detect_traps w fn0 = Ok first ->
         RefCrop.anchor_centroid (Script.dilated_centroids first)
                                 (Script.frame_rows first) = Ok centroid ->
         Script.crop_frames w (fn0 :: more) centroid = Ok tt ->
         Script.align_regions w (fn0 :: more) centroid = Ok (props, stack) ->
         filter_stack props stack = frame0 :: later ->
         In img later ->
         length (Script.regionprops_centroids w img)
         <> length (Script.regionprops_centroids w frame0) ->
         Script.unet_metadata cfg w files
         = ([Script.Information
               "Identifying channel locations and aligning images using U-net.";
             Script.Information "Loading model...";
             Script.Information "Model loaded.";
             Script.Information
               "Waiting for image metadata pool to be finished.";
             Script.Information
               "Image metadata pool finished, getting results.";
             Script.Print "Predicting trap locations for first frame.";
             Script.Print
               "Predicting trap regions for (512,512) slice through all frames."],
            Raise IndexError)
         /\ (Script.do_metadata cfg = true ->
             Script.find_channels_method cfg = "Unet" ->
             Script.outcome (Script.find_files cfg w) = Ok files ->
             Script.outcome (Script.metadata_stage cfg w) = Raise IndexError
             /\ Script.outcome (Script.main cfg w) = Raise IndexError
             /\ Script.writes (Script.main cfg w) = []
             /\ forall d, ~ In (Script.SaveMetadata d)
                               (Script.trace (Script.main cfg w)))).
Proof.
  split; [exact estimate_shifts_mismatch|].
  split; [exact estimate_shifts_uniform|].
  intros cfg w files imgs fn0 more first centroid props stack frame0 later img
         Hmodel Hread Hnames Hframe Hdetect Hsel Hcrop Halign Hstack Hin Hlen.
  assert (Float64.estimate_shifts (Script.regionprops_centroids w)
                                  (filter_stack props stack)
          = Raise IndexError)
    as Hest.
  { rewrite Hstack. now apply estimate_shifts_mismatch with (img := img). }
  pose proof (unet_metadata_estimation_fails cfg w files imgs fn0 more first
                Hmodel Hread Hnames Hframe Hdetect centroid props stack
                IndexError Hsel Hcrop Halign Hest) as Hunet.
  split; [exact Hunet|].
  intros Hdo Hmethod Hfiles.
  destruct (unet_failure_is_fatal cfg w files IndexError Hdo Hmethod Hfiles)
    as (H1 & H2 & H3 & H4 & _).
  { now rewrite Hunet. }
  auto.
Qed.

(** The theorem on a run of two frames whose filtered stack holds two
    regions in the first frame and one in the second. *)
Lemma count_mismatch_raises_witness :
  let w := Sample.world Sample.two_paths Sample.sample_params
                        Sample.aligned_mismatch in
  let run := Script.main (Sample.config "Unet" "TIFF" true) w in
  Script.outcome run = Raise IndexError
  /\ Script.writes run = []
  /\ forall d, ~ In (Script.SaveMetadata d) (Script.trace run).
Proof.
  intros w run.
  destruct count_mismatch_raises as (_ & _ & H).
  destruct (H (Sample.config "Unet" "TIFF" true) w
              ["e_t0001xy01.tif"; "e_t0002xy01.tif"]
              [("e_t0001xy01.tif",
                Script.Meta (Script.mkMetadata 1 1 ["c1"] None));
               ("e_t0002xy01.tif",
                Script.Meta (Script.mkMetadata 1 2 ["c1"] None))]
              "e_t0001xy01.tif" ["e_t0002xy01.tif"]
              Sample.first_centred (1000, 1000)
              (fst Sample.aligned_mismatch) (snd Sample.aligned_mismatch)
              [[1; 0; 0; 0; 2; 0; 0]; [1; 0; 0; 0; 2; 0; 0];
               [0; 0; 0; 0; 0; 0; 0]]
              [[[0; 0; 3; 0; 0; 0; 0]; [0; 0; 3; 0; 0; 0; 0];
                [0; 0; 0; 0; 0; 0; 0]]]
              [[0; 0; 3; 0; 0; 0; 0]; [0; 0; 3; 0; 0; 0; 0];
               [0; 0; 0; 0; 0; 0; 0]])
    as [_ Hrun]; try reflexivity.
  - now left.
  - vm_compute. discriminate.
  - exact (proj2 (Hrun eq_refl eq_refl eq_refl)).
Defined.

(** C4, as stated, fails on that run: the area filter leaves two
    regions in the first frame and one in the second; the run ends in
    [IndexError] before the metadata are saved, and no frame is sliced -
    neither the mismatched one nor the other.  The regions' areas are
    the pixel counts of their labels in the stack. *)
Lemma count_mismatch_aborts_run :
  let w := Sample.world Sample.two_paths Sample.sample_params
                        Sample.aligned_mismatch in
  let run := Script.main (Sample.config "Unet" "TIFF" true) w in
  map area (fst Sample.aligned_mismatch)
  = map (fun r => Z.of_nat (count_occ Z.eq_dec
                              (concat (concat (snd Sample.aligned_mismatch)))
                              (label r)))
        (fst Sample.aligned_mismatch)
  /\ map (fun img => length (Sample.centroids_of_image img))
         (filter_stack (fst Sample.aligned_mismatch)
                       (snd Sample.aligned_mismatch))
     = [2%nat; 1%nat]
  /\ Script.outcome run = Raise IndexError
  /\ Script.writes run = []
  /\ ~ (exists d, In (Script.SaveMetadata d) (Script.trace run)).
Proof.
  vm_compute. repeat split.
  intros [d H]. repeat (destruct H as [H|H]; [discriminate|]). exact H.
Qed.

(** ** Missing input and failed reference-crop selection *)

Section SelectionFacts.

Import RefCrop.

Lemma anchor_centroid_raises (cs : list Centroid) (rows : Z) (e : exn) :
  anchor_centroid cs rows = Raise e -> e = IndexError.
Proof.
  unfold anchor_centroid, good_trap_region_index.
  destruct (rounded cs) as [|c l]; [now intros [= <-]|].
  destruct (np_where _) as [|i ?]; [now intros [= <-]|].
  destruct (nth_error (c :: l) i); [discriminate | now intros [= <-]].
Qed.

End SelectionFacts.

(** C6, as the code has it.  Finding the input frames never fails: when
    none is found it logs the warning "No TIFF files found" and the run
    goes on - the pooled extraction of the peak strategy then yields an
    empty table, the segmentation path stops with [IndexError] on
    [file_names[0]] once the model is loaded.  The reference-crop
    selection has one way to fail, a bare [IndexError], which is what it
    raises when there is no trap region at all.  A run of the
    segmentation strategy whose selection fails ends in that
    [IndexError]: the segmentation path has emitted its six progress
    lines and nothing else, and the whole run no event beyond those of
    the set-up and of the file search - no diagnostic names the failed
    precondition. *)
Theorem missing_input_behaviour :
  (forall cfg w,
      exists files,
        Script.outcome (Script.find_files cfg w) = Ok files
        /\ (files = [] ->
            In (Script.Warning "No TIFF files found")
               (Script.trace (Script.find_files cfg w))))
  /\ (forall cfg w,
         1 <= Script.analyzers cfg ->
         Script.outcome (Script.peaks_metadata cfg w []) = Ok [])
  /\ (forall cfg w,
         Script.outcome (Script.unet_metadata cfg w [])
         = match Script.load_model w (Script.model_file_path cfg) with
           | Ok _ => Raise IndexError
           | Raise e => Raise e
           end)
  /\ (forall rows, RefCrop.anchor_centroid [] rows = Raise IndexError)
  /\ (forall cs rows e,
         RefCrop.anchor_centroid cs rows = Raise e -> e = IndexError)
  /\ (forall cfg w files imgs fn0 more first e,
         Script.load_model w (Script.model_file_path cfg) = Ok tt ->
         Script.outcome (Script.for_each files (Script.read_params w) [])
         = Ok imgs ->
         Script.sorted_file_names imgs = fn0 :: more ->
         Script.read_first_frame w fn0 = Ok tt ->
         Script.detect_traps w fn0 = Ok first ->
         RefCrop.anchor_centroid (Script.dilated_centroids first)
                                 (Script.frame_rows first) = Raise e ->
         Script.unet_metadata cfg w files
         = ([Script.Information
               "Identifying channel locations and aligning images using U-net.";
             Script.Information "Loading model...";
             Script.Information "Model loaded.";
             Script.Information
               "Waiting for image metadata pool to be finished.";
             Script.Information
               "Image metadata pool finished, getting results.";
             Script.Print "Predicting trap locations for first frame."],
            Raise IndexError)
         /\ (Script.do_metadata cfg = true ->
             Script.find_channels_method cfg = "Unet" ->
             Script.outcome (Script.find_files cfg w) = Ok files ->
             Script.outcome (Script.main cfg w) = Raise IndexError
             /\ Script.trace (Script.main cfg w)
                = Script.trace (Script.setup cfg w)
                  ++ Script.Information "Finding image parameters."
                     :: Script.trace (Script.find_files cfg w)
                     ++ [Script.Information
                           "Identifying channel locations and aligning images using U-net.";
                         Script.Information "Loading model...";
                         Script.Information "Model loaded.";
                         Script.Information
                           "Waiting for image metadata pool to be finished.";
                         Script.Information
                           "Image metadata pool finished, getting results.";
                         Script.Print
                           "Predicting trap locations for first frame."])).
Proof.
  split; [exact find_files_completes|].
  split.
  { intros cfg w Hn.
    rewrite (peaks_metadata_value w cfg [] Hn) by constructor. reflexivity. }
  split; [exact unet_metadata_no_files|].
  split; [reflexivity|].
  split; [exact anchor_centroid_raises|].
  intros cfg w files imgs fn0 more first e
         Hmodel Hread Hnames Hframe Hdetect Hsel.
  assert (e = IndexError) as -> by exact (anchor_centroid_raises _ _ _ Hsel).
  pose proof (unet_metadata_selection_fails cfg w files imgs fn0 more first
                Hmodel Hread Hnames Hframe Hdetect IndexError Hsel) as Hunet.
  split; [exact Hunet|].
  intros Hdo Hmethod Hfiles.
  destruct (unet_failure_is_fatal cfg w files IndexError Hdo Hmethod Hfiles)
    as (_ & H2 & _ & _ & H5).
  { now rewrite Hunet. }
  split; [exact H2|]. rewrite H5, Hunet. reflexivity.
Qed.

(** The theorem on a run whose first frame has its two trap regions at
    the upper and the lower edge. *)
Lemma missing_input_behaviour_witness :
  let w := Sample.world_with Sample.first_at_edges Sample.two_paths
                             Sample.sample_params Sample.aligned_steady in
  Script.outcome (Script.main (Sample.config "Unet" "TIFF" true) w)
  = Raise IndexError.
Proof.
  intros w.
  destruct missing_input_behaviour as (_ & _ & _ & _ & _ & H).
  exact (proj1
           (proj2 (H (Sample.config "Unet" "TIFF" true) w
                     ["e_t0001xy01.tif"; "e_t0002xy01.tif"]
                     [("e_t0001xy01.tif",
                       Script.Meta (Script.mkMetadata 1 1 ["c1"] None));
                      ("e_t0002xy01.tif",
                       Script.Meta (Script.mkMetadata 1 2 ["c1"] None))]
                     "e_t0001xy01.tif" ["e_t0002xy01.tif"]
                     Sample.first_at_edges IndexError
                     eq_refl eq_refl eq_refl eq_refl eq_refl eq_refl)
                  eq_refl eq_refl eq_refl)).
Defined.

(** C6, as stated, fails on two runs.  With no input frame and the peak
    strategy the run warns and completes.  With the segmentation
    strategy and a first frame whose trap regions lie at its edges the
    run stops with [IndexError]; its log ends with a progress line and
    names no failed precondition. *)
Lemma missing_input_not_diagnosed :
  let empty_run :=
    Script.main (Sample.config "peaks" "TIFF" false)
                (Sample.world [] Sample.sample_params Sample.aligned_steady) in
  let edge_run :=
    Script.main (Sample.config "Unet" "TIFF" true)
                (Sample.world_with Sample.first_at_edges Sample.two_paths
                                   Sample.sample_params Sample.aligned_steady) in
  Script.outcome empty_run = Ok tt
  /\ In (Script.Warning "No TIFF files found") (Script.trace empty_run)
  /\ Script.outcome edge_run = Raise IndexError
  /\ Script.log edge_run
     = [Script.Information "Loading experiment parameters.";
        Script.Information "Using 4 threads for multiprocessing.";
        Script.Information "Finding image parameters.";
        Script.Information "Found 2 image files.";
        Script.Information
          "Identifying channel locations and aligning images using U-net.";
        Script.Information "Loading model...";
        Script.Information "Model loaded.";
        Script.Information "Waiting for image metadata pool to be finished.";
        Script.Information "Image metadata pool finished, getting results.";
        Script.Print "Predicting trap locations for first frame."].
Proof.
  vm_compute. repeat split. do 3 right. left. reflexivity.
Qed.
